(** * AI-AffiliateAI-Back: gateway route, bridge services and fetch hook

    A shallow embedding of the three JavaScript/TypeScript components of the
    repository that carry protocol or state:

    - the bridge services ([app/api/neural-bridge.js] and its affiliate
      sibling): an Express app with an in-memory [activities] array;
    - the gateway route handlers [GET] and [POST] of [/api/universal];
    - the React hook [useUniversalFetcher] with its [fetchUniversal] callback.

    JSON values are an inductive type whose objects are finite maps; code that
    awaits, throws and updates state is written in a small state-and-exception
    monad with [try]/[catch]/[finally] combinators. *)

From Stdlib Require Import ZArith QArith Ascii String.
From stdpp Require Import gmap strings list fin_maps pretty sorting.

Set Warnings "-register-all".
Local Open Scope Z_scope.

(** ** JavaScript values *)

(** A JSON value.  Objects are maps from property names to values; numbers are
    rationals (every JSON number literal is one). *)
Inductive jsval : Type :=
  | JNull
  | JBool (b : bool)
  | JNum (q : Q)
  | JStr (s : string)
  | JArr (l : list jsval)
  | JObj (m : gmap string jsval).

(** An [Error] object, with its name and its message. *)
Record Error : Type := mkError { name : string; message : string }.

(** [new Error(msg)] *)
Definition new_Error (msg : string) : Error := mkError "Error" msg.

(** What a [throw] or a rejected promise carries: an [Error] object, or any
    other value ([None] for undefined), as the reason of an aborted fetch
    can be. *)
Inductive thrown : Type :=
  | Err (e : Error)
  | Val (v : option jsval).
Coercion Err : Error >-> thrown.

(** Truthiness of a [string | null | undefined] value: [None] (null or
    undefined) and the empty string are falsy. *)
Definition truthy (x : option string) : bool :=
  match x with
  | None => false
  | Some s => negb (bool_decide (s = ""))
  end.

(** [x || d] on a [string | undefined] left operand. *)
Definition or_else (x : option string) (d : string) : string :=
  match x with
  | Some s => if truthy x then s else d
  | None => d
  end.

(** [`${x}`]: a [string | null] value inside a template literal. *)
Definition interpolate (x : option string) : string :=
  match x with
  | Some s => s
  | None => "null"
  end.

(** The array-index property names ["0"], ["1"], ... of a list. *)
Definition indexed (l : list jsval) : gmap string jsval :=
  list_to_map (imap (λ (i : nat) v, (pretty i, v)) l).

(** The own enumerable properties that an object spread [...v] copies:
    the keys of an object, the indices of an array, the characters of a
    string, and nothing for [null], booleans and numbers. *)
Definition own_props (v : jsval) : gmap string jsval :=
  match v with
  | JObj m => m
  | JArr l => indexed l
  | JStr s => indexed ((λ c, JStr (String c "")) <$> String.list_ascii_of_string s)
  | JNull | JBool _ | JNum _ => ∅
  end.

(** ** Bridge services *)

Module Bridge.

(** The two services differ only in route prefix, metrics and message. *)
Inductive domain : Type := Neural | Affiliate.

(** [res.json(body)]: an HTTP 200 answer with a JSON body. *)
Record response : Type := mkResponse { status : Z; body : jsval }.

Definition res_json (b : jsval) : response := mkResponse 200 b.

(** The two readings of the clock a handler may take. *)
Record clock : Type := mkClock {
  toISOString : string;   (* new Date().toISOString() *)
  now : Z                 (* Date.now() *)
}.

(** The object literal [{ type, ...payload, timestamp: Date.now() }],
    evaluated left to right: later properties overwrite earlier ones. *)
Definition record (type : string) (payload : jsval) (t : Z) : jsval :=
  let o1 : gmap string jsval := {[ "type" := JStr type ]} in
  let o2 := own_props payload ∪ o1 in
  JObj (<[ "timestamp" := JNum (inject_Z t) ]> o2).

(** [function addActivity(type, payload = {})]: the default applies when the
    argument is [undefined] ([None]).  [unshift] puts the record in front,
    and setting [length] to 20 truncates the array. *)
Definition addActivity (type : string) (payload : option jsval) (t : Z)
    (activities : list jsval) : list jsval :=
  let payload := default (JObj ∅) payload in
  let activities := record type payload t :: activities in
  if (20 <? length activities)%nat then take 20 activities else activities.

Definition num (n d : Z) : jsval := JNum (Qmake n (Z.to_pos d)).

Definition obj (l : list (string * jsval)) : jsval := JObj (list_to_map l).

Definition metrics_body (d : domain) (iso : string) : jsval :=
  match d with
  | Neural => obj [
      ("globalAnalysis", JStr "Processing 2.3M data points");
      ("automationLevel", num 87 1);
      ("marketTrends", JArr [
         obj [("region", JStr "North America"); ("growth", num 125 10); ("status", JStr "bullish")];
         obj [("region", JStr "Europe"); ("growth", num 83 10); ("status", JStr "stable")];
         obj [("region", JStr "Asia Pacific"); ("growth", num 157 10); ("status", JStr "bullish")]]);
      ("timestamp", JStr iso)]
  | Affiliate => obj [
      ("activeCampaigns", num 12 1);
      ("conversionRate", num 37 10);
      ("totalClicks", num 15420 1);
      ("revenue", num 87505 10);
      ("topPerformers", JArr [
         obj [("name", JStr "Tech Products Campaign"); ("conversion", num 42 10); ("revenue", num 3200 1)];
         obj [("name", JStr "Health & Wellness"); ("conversion", num 38 10); ("revenue", num 2800 1)];
         obj [("name", JStr "Digital Services"); ("conversion", num 31 10); ("revenue", num 2750 1)]]);
      ("timestamp", JStr iso)]
  end.

Definition optimize_message (d : domain) : string :=
  match d with
  | Neural => "Neural optimization started!"
  | Affiliate => "Affiliate optimization started!"
  end.

(** The requests that reach one of the three registered handlers;
    [Optimize] carries [req.body] as the JSON middleware left it. *)
Inductive request : Type :=
  | Metrics
  | Optimize (body : option jsval)
  | Activities.

(** [app.get("/<domain>/metrics", ...)] *)
Definition metrics (d : domain) (c : clock) (activities : list jsval)
    : list jsval * response :=
  let res := res_json (metrics_body d (toISOString c)) in
  (addActivity "metrics-served" None (now c) activities, res).

(** [app.post("/<domain>/optimize", ...)] *)
Definition optimize (d : domain) (c : clock) (body : option jsval)
    (activities : list jsval) : list jsval * response :=
  let activities := addActivity "optimize-triggered" body (now c) activities in
  (activities,
   res_json (obj [("success", JBool true); ("message", JStr (optimize_message d))])).

(** [app.get("/<domain>/activities", ...)] *)
Definition get_activities (activities : list jsval) : list jsval * response :=
  (activities, res_json (obj [("activities", JArr activities)])).

Definition handle (d : domain) (c : clock) (r : request)
    (activities : list jsval) : list jsval * response :=
  match r with
  | Metrics => metrics d c activities
  | Optimize b => optimize d c b activities
  | Activities => get_activities activities
  end.

(** The log after a sequence of requests, each served at its own clock
    reading.  A fresh service starts from [const activities = []]. *)
Fixpoint run (d : domain) (reqs : list (clock * request))
    (activities : list jsval) : list jsval :=
  match reqs with
  | [] => activities
  | (c, r) :: reqs => run d reqs (fst (handle d c r activities))
  end.

(** The record a request inserts, if it inserts one. *)
Definition inserted (cr : clock * request) : list jsval :=
  match cr with
  | (c, Metrics) => [record "metrics-served" (JObj ∅) (now c)]
  | (c, Optimize b) => [record "optimize-triggered" (default (JObj ∅) b) (now c)]
  | (_, Activities) => []
  end.

End Bridge.

(** ** Awaiting, throwing and updating state *)

Module Eff.

(** How an evaluation or an awaited promise ends. *)
Inductive outcome (A : Type) : Type :=
  | Return (a : A)
  | Throw (e : thrown).
Arguments Return {A} a.
Arguments Throw {A} e.

(** A computation over a state [S] that returns or throws. *)
Definition eff (S A : Type) : Type := S → S * outcome A.

Definition ret {S A} (a : A) : eff S A := λ s, (s, Return a).

Definition throw {S A} (e : thrown) : eff S A := λ s, (s, Throw e).

Definition bind {S A B} (m : eff S A) (k : A → eff S B) : eff S B :=
  λ s, match m s with
       | (s', Return a) => k a s'
       | (s', Throw e) => (s', Throw e)
       end.

(** [await p] for a promise that has settled with outcome [o]. *)
Definition await {S A} (o : outcome A) : eff S A := λ s, (s, o).

(** An expression that evaluates to a value or throws. *)
Definition eval {S A} (o : outcome A) : eff S A := λ s, (s, o).

Definition modify {S} (f : S → S) : eff S () := λ s, (f s, Return ()).

(** [try { m } catch (e) { h e }] *)
Definition try_catch {S A} (m : eff S A) (h : thrown → eff S A) : eff S A :=
  λ s, match m s with
       | (s', Return a) => (s', Return a)
       | (s', Throw e) => h e s'
       end.

(** [try { m } finally { f }]: [f] runs on both exits; the completion of [m]
    stands unless [f] throws itself. *)
Definition try_finally {S A} (m : eff S A) (f : eff S ()) : eff S A :=
  λ s, match m s with
       | (s', o) =>
           match f s' with
           | (s'', Return _) => (s'', o)
           | (s'', Throw e) => (s'', Throw e)
           end
       end.

#[global] Instance eff_ret {S} : MRet (eff S) := λ A, @ret S A.
#[global] Instance eff_bind {S} : MBind (eff S) := λ A B k m, @bind S A B m k.

End Eff.
Import Eff.

(** ** The Fetch API, as far as the code uses it *)

Module Fetch.

(** The [RequestInit] dictionary.  [signal] stands for an [AbortSignal]
    that the caller gives and aborts: the reason it is aborted with. *)
Record RequestInit : Type := mkRequestInit {
  method : string;
  body : option string;
  headers : list (string * string);
  signal : option thrown
}.

(** A dictionary without a signal. *)
Definition mkInit (method : string) (body : option string)
    (headers : list (string * string)) : RequestInit :=
  mkRequestInit method body headers None.

(** A [Response]: its status and how [res.json()] settles. *)
Record Response : Type := mkResponse {
  status : Z;
  json : outcome jsval
}.

(** [res.ok]: the status is in the range 200-299. *)
Definition ok (res : Response) : bool :=
  (200 <=? status res) && (status res <=? 299).

(** The network: how [fetch(url, init)] settles. *)
Definition network : Type := string → option RequestInit → outcome Response.

(** The call [fetch(...)] followed by [res.json()] throws [e]: the fetch
    itself rejects with it, or the body fails to parse with it. *)
Definition throws (o : outcome Response) (e : thrown) : Prop :=
  match o with
  | Throw e' => e' = e
  | Return res => json res = Throw e
  end.


End Fetch.

(** ** Gateway route [/api/universal] *)

Module Gateway.
Import Fetch.

(** [URLSearchParams.get]: the first value given for the name, or [null]. *)
Fixpoint get (name : string) (params : list (string * string)) : option string :=
  match params with
  | [] => None
  | (k, v) :: params => if decide (k = name) then Some v else get name params
  end.

Record NextRequest : Type := mkRequest {
  searchParams : list (string * string);   (* req.nextUrl.searchParams *)
  text : string                            (* await req.text() *)
}.

Record NextResponse : Type := mkNextResponse { nr_status : Z; nr_body : jsval }.

(** [NextResponse.json(data, { status })]; the status defaults to 200. *)
Definition NextResponse_json (data : jsval) (status : option Z) : NextResponse :=
  mkNextResponse (default 200 status) data.

(** One outbound call: the URL and the init dictionary handed to [fetch]. *)
Definition call : Type := string * RequestInit.

Definition no_target : jsval :=
  JObj {[ "error" := JStr "No target specified" ]}.

Section Handlers.
Variable env_BACKEND_URL : option string.   (* process.env.BACKEND_URL *)
Variable net : network.

Definition BACKEND_URL : string := or_else env_BACKEND_URL "http://localhost:8000".

(** [await fetch(url, init)], recording the call. *)
Definition fetch (url : string) (init : RequestInit) : eff (list call) Response :=
  λ calls, (calls ++ [(url, init)], net url (Some init)).

Definition GET (req : NextRequest) : eff (list call) NextResponse :=
  let target := get "target" (searchParams req) in
  if negb (truthy target) then
    mret (NextResponse_json no_target (Some 400))
  else
    let url := BACKEND_URL +:+ "/" +:+ interpolate target in
    res ← fetch url (mkInit "GET" None []);
    data ← await (json res);
    mret (NextResponse_json data None).

Definition POST (req : NextRequest) : eff (list call) NextResponse :=
  let target := get "target" (searchParams req) in
  if negb (truthy target) then
    mret (NextResponse_json no_target (Some 400))
  else
    let url := BACKEND_URL +:+ "/" +:+ interpolate target in
    body ← mret (text req);
    res ← fetch url (mkInit "POST" (Some body) [("Content-Type", "application/json")]);
    data ← await (json res);
    mret (NextResponse_json data None).

End Handlers.

End Gateway.

(** ** The hook [useUniversalFetcher] *)

Module Hook.
Import Fetch.

(** What the [error] cell holds when it is not null: a message string, as
    its type says, or at run time any other value that [e.message] gave
    ([None] for undefined). *)
Inductive errval : Type :=
  | Str (m : string)
  | Other (v : option jsval).

(** The three [useState] cells. *)
Record state : Type := mkState {
  loading : bool;
  error : option errval;   (* string | null *)
  data : jsval             (* T | null, [JNull] for null *)
}.

(** [useState(false)], [useState(null)], [useState(null)] *)
Definition initial : state := mkState false None JNull.

Definition setLoading (b : bool) : eff state () :=
  modify (λ s, mkState b (error s) (data s)).
Definition setError (e : option errval) : eff state () :=
  modify (λ s, mkState (loading s) e (data s)).
Definition setData (d : jsval) : eff state () :=
  modify (λ s, mkState (loading s) (error s) d).

(** The cell content for a value handed to [setError]: null, a string, or
    anything else. *)
Definition cell_of (v : option jsval) : option errval :=
  match v with
  | Some JNull => None
  | Some (JStr m) => Some (Str m)
  | _ => Some (Other v)
  end.

(** The [TypeError] of reading a property of [null] or [undefined], with
    the message Node.js and Chrome give it. *)
Definition unreadable (what : string) : Error :=
  mkError "TypeError"
    ("Cannot read properties of " +:+ what +:+ " (reading 'message')").

(** [e.message] for a caught value [e], as the cell content it gives:
    the message of an [Error] object, the property [message] of another
    object, undefined for a primitive or an array, and a [TypeError] for
    [null] and [undefined]. *)
Definition message_of (e : thrown) : outcome (option errval) :=
  match e with
  | Err e => Return (Some (Str (message e)))
  | Val None => Throw (unreadable "undefined")
  | Val (Some JNull) => Throw (unreadable "null")
  | Val (Some (JObj o)) => Return (cell_of (o !! "message"))
  | Val (Some _) => Return (Some (Other None))
  end.

(** The value a call ends up throwing when [e] was caught: [e] itself, or
    the [TypeError] of reading its message. *)
Definition rethrown (e : thrown) : thrown :=
  match message_of e with
  | Return _ => e
  | Throw e' => e'
  end.

(** The [error] cell after the [catch] block caught [e], when the cell held
    [before]: the message of [e], or what it held if the message could not
    be read. *)
Definition error_after (e : thrown) (before : option errval) : option errval :=
  match message_of e with
  | Return m => m
  | Throw _ => before
  end.

(** Characters [encodeURIComponent] leaves alone: letters, digits and
    [- _ . ! ~ * ' ( )]. *)
Definition unescaped (c : ascii) : bool :=
  let n := N_of_ascii c in
  ((65 <=? n) && (n <=? 90) || (97 <=? n) && (n <=? 122)
   || (48 <=? n) && (n <=? 57)
   || bool_decide (c ∈ String.list_ascii_of_string "-_.!~*'()"))%N.

Definition hex_digit (n : N) : ascii :=
  default "0"%char (String.list_ascii_of_string "0123456789ABCDEF" !! N.to_nat n).

(** A JavaScript string is a sequence of UTF-16 code units, here numbers
    below 65536; its [length] is the length of the list.  [js] gives the
    code units of a string of ASCII characters. *)
Definition js (s : string) : list N :=
  N_of_ascii <$> String.list_ascii_of_string s.

(** The code unit is one of the characters left alone. *)
Definition unescaped_unit (u : N) : bool :=
  (u <? 128)%N && unescaped (ascii_of_N u).

(** Leading and trailing surrogates. *)
Definition is_lead (u : N) : bool := (0xD800 <=? u)%N && (u <=? 0xDBFF)%N.
Definition is_trail (u : N) : bool := (0xDC00 <=? u)%N && (u <=? 0xDFFF)%N.

(** The code point of a surrogate pair. *)
Definition pair_code_point (lead trail : N) : N :=
  ((lead - 0xD800) * 0x400 + (trail - 0xDC00) + 0x10000)%N.

(** The octets of the UTF-8 encoding of a code point. *)
Definition utf8 (cp : N) : list N :=
  (if cp <? 0x80 then [cp]
   else if cp <? 0x800 then [0xC0 + cp / 0x40; 0x80 + cp mod 0x40]
   else if cp <? 0x10000 then
     [0xE0 + cp / 0x1000; 0x80 + (cp / 0x40) mod 0x40; 0x80 + cp mod 0x40]
   else
     [0xF0 + cp / 0x40000; 0x80 + (cp / 0x1000) mod 0x40;
      0x80 + (cp / 0x40) mod 0x40; 0x80 + cp mod 0x40])%N.

(** An octet as [%XX], in front of the rest of the result. *)
Definition percent (octet : N) (rest : string) : string :=
  String "%"%char
    (String (hex_digit (octet / 16)) (String (hex_digit (octet mod 16)) rest)).

Definition percent_all (octets : list N) (rest : string) : string :=
  foldr percent rest octets.

(** What [encodeURIComponent] throws on an unpaired surrogate, with the
    message Node.js and Chrome give it. *)
Definition URIError : Error := mkError "URIError" "URI malformed".

Definition and_then (o : outcome string) (f : string → string) : outcome string :=
  match o with
  | Return r => Return (f r)
  | Throw e => Throw e
  end.

(** The built-in [encodeURIComponent]: an unescaped code unit is copied;
    any other code point (a code unit that is no surrogate, or a leading
    surrogate with the trailing one behind it) becomes the [%XX] of its
    UTF-8 octets; a surrogate without its partner throws. *)
Fixpoint encodeURIComponent (s : list N) : outcome string :=
  match s with
  | [] => Return EmptyString
  | u :: rest =>
      if unescaped_unit u then
        and_then (encodeURIComponent rest) (String (ascii_of_N u))
      else if is_lead u then
        match rest with
        | v :: rest' =>
            if is_trail v then
              and_then (encodeURIComponent rest')
                (percent_all (utf8 (pair_code_point u v)))
            else Throw URIError
        | [] => Throw URIError
        end
      else if is_trail u then Throw URIError
      else and_then (encodeURIComponent rest) (percent_all (utf8 u))
  end.

Section Fetcher.
Variable net : network.

Definition fetchUniversal (target : list N) (opts : option RequestInit)
    : eff state jsval :=
  setLoading true;;
  setError None;;
  setData JNull;;
  try_finally
    (try_catch
       (encoded ← eval (encodeURIComponent target);
        res ← await (net ("/api/universal?target=" +:+ encoded) opts);
        if negb (ok res) then throw (new_Error "API error")
        else
          json ← await (json res);
          setData json;;
          mret json)
       (λ e, m ← eval (message_of e); setError m;; throw e))
    (setLoading false).

End Fetcher.

End Hook.

(** ** Property access and sample inputs *)

(** [v.k] on a JSON value: [None] stands for [undefined]. *)
Definition prop (v : jsval) (k : string) : option jsval :=
  match v with
  | JObj m => m !! k
  | _ => None
  end.

Module Samples.
Import Bridge.

(** The body [{"foo":1}]. *)
Definition foo1 : jsval := JObj {[ "foo" := JNum 1 ]}.

(** The body [{"payload":1}]. *)
Definition payload1 : jsval := JObj {[ "payload" := JNum 1 ]}.

(** The body [{"type":"custom","timestamp":0}]. *)
Definition typed : jsval :=
  JObj (<[ "type" := JStr "custom" ]> {[ "timestamp" := JNum 0 ]}).

(** Clock readings 1 ms apart, starting at [t]. *)
Definition ticks (t : Z) (n : nat) : list clock :=
  (λ i : nat, mkClock "2025-07-20T18:40:19.777Z" (t + Z.of_nat i)) <$> seq 0 n.

Definition noon : clock := mkClock "2025-07-20T12:00:00.000Z" 1753012800000.

End Samples.

Module NetSamples.
Import Fetch Gateway.

(** The upstream cannot be reached: [fetch] rejects. *)
Definition net_down : network :=
  λ _ _, Throw (mkError "TypeError" "fetch failed").

(** The upstream answers 500 with a JSON body. *)
Definition boom : jsval := JObj {[ "detail" := JStr "boom" ]}.
Definition net_500 : network := λ _ _, Return (mkResponse 500 (Return boom)).

(** The upstream answers 200 with a body that is not JSON. *)
Definition net_html : network :=
  λ _ _, Return (mkResponse 200
                   (Throw (mkError "SyntaxError" "Unexpected token < in JSON")))%Z.



(** [/api/universal?target=neural/metrics] *)
Definition to_metrics : NextRequest :=
  mkRequest [("target", "neural/metrics")] "".

(** [/api/universal] and [/api/universal?target=] *)
Definition no_query : NextRequest := mkRequest [] "{}".
Definition empty_target : NextRequest := mkRequest [("target", "")] "{}".

End NetSamples.

(** ** Array-index keys *)

(** The string starts with a decimal digit, as every array index does. *)
Definition starts_with_digit (s : string) : Prop :=
  match s with
  | String c _ => (48 ≤ N_of_ascii c ≤ 57)%N
  | EmptyString => False
  end.

(** ** Reading the log *)

Module Log.
Import Bridge.

(** Whether the handler of a request calls [addActivity]. *)
Definition logs (r : request) : bool :=
  match r with
  | Metrics | Optimize _ => true
  | Activities => false
  end.

(** The clock readings of the requests that log, oldest first. *)
Definition logged (reqs : list (clock * request)) : list clock :=
  reqs ≫= λ cr, if logs (snd cr) then [fst cr] else [].

(** [r.timestamp] of every record of a log. *)
Definition timestamps (activities : list jsval) : list (option jsval) :=
  (λ r, prop r "timestamp") <$> activities.

End Log.

(** ** The two synchronous segments of [fetchUniversal]

    Between its call and its first [await] the callback runs the three
    setters and encodes the target; if the encoding throws, the call is over
    before anything is awaited.  Otherwise the call is in flight, and once
    the fetch (and the body) has settled it runs the rest of the [try]
    block, the [catch] and the [finally] without another interruption by a
    state update of its own.  Two calls in flight interleave at these
    segments; [encoded] is the encoded target of a call in flight. *)

Module Segments.
Import Fetch Hook.

(** [setLoading(true); setError(null); setData(null);] *)
Definition start : eff state () :=
  setLoading true;;
  setError None;;
  setData JNull.

(** [try { ... } catch (e) { ... } finally { ... }], from the settled fetch
    on. *)
Definition settle (net : network) (encoded : string) (opts : option RequestInit)
    : eff state jsval :=
  try_finally
    (try_catch
       (res ← await (net ("/api/universal?target=" +:+ encoded) opts);
        if negb (ok res) then throw (new_Error "API error")
        else
          json ← await (json res);
          setData json;;
          mret json)
       (λ e, m ← eval (message_of e); setError m;; throw e))
    (setLoading false).

(** How a call in flight ends, as the network decides it: with the parsed
    body, or with the error of the fetch, of the status check or of the
    parse. *)
Definition outcome_of (net : network) (encoded : string) (opts : option RequestInit)
    : outcome jsval :=
  match net ("/api/universal?target=" +:+ encoded) opts with
  | Throw e => Throw e
  | Return res => if ok res then json res else Throw (new_Error "API error")
  end.

(** Call A starts, call B starts, B settles, then A settles.  The result is
    the final state with the outcomes of A and of B. *)
Definition overlap (netA : network) (encodedA : string)
    (netB : network) (encodedB : string) (s : state)
    : state * (outcome jsval * outcome jsval) :=
  let sA := fst (start s) in
  let sB := fst (start sA) in
  let '(s3, oB) := settle netB encodedB None sB in
  let '(s4, oA) := settle netA encodedA None s3 in
  (s4, (oA, oB)).

(** The state while A is still in flight: A starts, B starts, B settles. *)
Definition pending (netB : network) (encodedB : string) (s : state) : state :=
  fst (settle netB encodedB None (fst (start (fst (start s))))).

End Segments.

(** ** What the browser receives from the route *)

Module Wire.
Import Fetch Gateway.

(** The [Response] of the browser's [fetch] for a [NextResponse.json(...)]
    of the route: the same status, and a body that parses to the data. *)
Definition as_response (r : NextResponse) : Response :=
  mkResponse (nr_status r) (Return (nr_body r)).

End Wire.

(** ** Encodings and their inverse *)

Module Percent.
Import Hook.

(** The steps of an encoding that returns. *)
Inductive encodes : list N → string → Prop :=
  | encodes_nil : encodes [] EmptyString
  | encodes_unescaped u s r :
      unescaped_unit u = true → encodes s r →
      encodes (u :: s) (String (ascii_of_N u) r)
  | encodes_unit u s r :
      unescaped_unit u = false → is_lead u = false → is_trail u = false →
      encodes s r →
      encodes (u :: s) (percent_all (utf8 u) r)
  | encodes_pair u v s r :
      unescaped_unit u = false → is_lead u = true → is_trail v = true →
      encodes s r →
      encodes (u :: v :: s) (percent_all (utf8 (pair_code_point u v)) r).

Definition unhex (c : ascii) : N :=
  let n := N_of_ascii c in
  (if (48 <=? n) && (n <=? 57) then n - 48
   else if (65 <=? n) && (n <=? 70) then n - 55
   else 0)%N.

(** The octets a percent-encoded string stands for. *)
Fixpoint octets (s : string) : list N :=
  match s with
  | EmptyString => []
  | String c s' =>
      if bool_decide (c = "%"%char) then
        match s' with
        | String h (String l rest) => (16 * unhex h + unhex l)%N :: octets rest
        | _ => []
        end
      else N_of_ascii c :: octets s'
  end.

(** The code points of well-formed UTF-8. *)
Fixpoint code_points (bs : list N) : list N :=
  match bs with
  | [] => []
  | b1 :: r1 =>
      if (b1 <? 0x80)%N then b1 :: code_points r1
      else if (b1 <? 0xE0)%N then
        match r1 with
        | b2 :: r2 => ((b1 - 0xC0) * 0x40 + (b2 - 0x80))%N :: code_points r2
        | _ => []
        end
      else if (b1 <? 0xF0)%N then
        match r1 with
        | b2 :: b3 :: r3 =>
            ((b1 - 0xE0) * 0x1000 + (b2 - 0x80) * 0x40 + (b3 - 0x80))%N
            :: code_points r3
        | _ => []
        end
      else
        match r1 with
        | b2 :: b3 :: b4 :: r4 =>
            ((b1 - 0xF0) * 0x40000 + (b2 - 0x80) * 0x1000
             + (b3 - 0x80) * 0x40 + (b4 - 0x80))%N
            :: code_points r4
        | _ => []
        end
  end.

(** The UTF-16 code units of a code point. *)
Definition units (cp : N) : list N :=
  (if cp <? 0x10000 then [cp]
   else [0xD800 + (cp - 0x10000) / 0x400; 0xDC00 + (cp - 0x10000) mod 0x400])%N.

(** The inverse of [encodeURIComponent] on its image. *)
Definition decode (s : string) : list N := code_points (octets s) ≫= units.

End Percent.

(** * Proofs *)

(** Unfolds the monad down to the [match] on each awaited outcome. *)
Ltac run_eff :=
  unfold try_finally, try_catch, modify, throw, await, eval,
    mbind, eff_bind, bind, mret, eff_ret, ret.

(** ** Bridge services: the activity log *)

Section BridgeFacts.
Import Bridge.

Lemma addActivity_take type payload t (activities : list jsval) :
  addActivity type payload t activities
  = take 20 (record type (default (JObj ∅) payload) t :: activities).
Proof.
  unfold addActivity.
  destruct (20 <? length _)%nat eqn:Hlen; [done|].
  apply Nat.ltb_ge in Hlen. by rewrite take_ge.
Qed.

Lemma length_addActivity type payload t (activities : list jsval) :
  (length (addActivity type payload t activities) ≤ 20)%nat.
Proof. rewrite addActivity_take, length_take. lia. Qed.

(** Truncating before or after putting a record in front is the same. *)
Lemma take_20_cons_take (r : jsval) (l : list jsval) :
  take 20 (r :: take 20 l) = take 20 (r :: l).
Proof. cbn [take]. f_equal. rewrite take_take. f_equal. Qed.

Lemma handle_take d c r (activities : list jsval) :
  fst (handle d c r (take 20 activities))
  = take 20 (inserted (c, r) ++ activities).
Proof.
  destruct r as [|b|]; cbn [handle metrics optimize get_activities fst inserted app].
  - rewrite addActivity_take. apply take_20_cons_take.
  - rewrite addActivity_take. apply take_20_cons_take.
  - done.
Qed.

(** The log is the 20 most recent insertions, the newest in front. *)
Lemma run_take d reqs (activities : list jsval) :
  run d reqs (take 20 activities)
  = take 20 (reverse (reqs ≫= inserted) ++ activities).
Proof.
  revert activities.
  induction reqs as [|[c r] reqs IH]; intros activities; [done|].
  cbn [run]. rewrite handle_take, IH. f_equal.
  change (((c, r) :: reqs) ≫= inserted) with (inserted (c, r) ++ (reqs ≫= inserted)).
  rewrite reverse_app, <-(assoc_L (++)). do 2 f_equal.
  by destruct r.
Qed.

Lemma run_fresh d reqs :
  run d reqs [] = take 20 (reverse (reqs ≫= inserted)).
Proof.
  change (@nil jsval) with (take 20 (@nil jsval)) at 1.
  by rewrite run_take, (right_id_L [] (++)).
Qed.

Lemma record_lookup type payload t k :
  prop (record type payload t) k
  = if decide (k = "timestamp") then Some (JNum (inject_Z t))
    else match own_props payload !! k with
         | Some v => Some v
         | None => if decide (k = "type") then Some (JStr type) else None
         end.
Proof.
  unfold record, prop.
  rewrite lookup_insert.
  destruct (decide ("timestamp" = k)) as [<-|Hts]; [done|].
  rewrite decide_False by done.
  destruct (own_props payload !! k) as [v|] eqn:Hk.
  - apply lookup_union_Some_raw. by left.
  - rewrite lookup_union_r, lookup_singleton by done.
    destruct (decide ("type" = k)) as [<-|Hty]; [done|].
    by rewrite decide_False.
Qed.

End BridgeFacts.

(** ** The model on concrete inputs *)

Example encodeURIComponent_path :
  Hook.encodeURIComponent (Hook.js "neural/metrics?a=b c")
  = Return "neural%2Fmetrics%3Fa%3Db%20c".
Proof. reflexivity. Qed.

Example spread_array :
  prop (Bridge.record "optimize-triggered" (JArr [JNull; JBool true]) 5) "1"
  = Some (JBool true).
Proof. reflexivity. Qed.

Example BACKEND_URL_default :
  Gateway.BACKEND_URL None = "http://localhost:8000"
  ∧ Gateway.BACKEND_URL (Some "") = "http://localhost:8000"
  ∧ Gateway.BACKEND_URL (Some "http://api:9000") = "http://api:9000".
Proof. repeat split. Qed.

Example fetchUniversal_success :
  Hook.fetchUniversal
    (λ _ _, Return (Fetch.mkResponse 200 (Return NetSamples.boom)))
    (Hook.js "neural/metrics") None
    (Hook.mkState false (Some (Hook.Str "API error")) JNull)
  = (Hook.mkState false None NetSamples.boom, Return NetSamples.boom).
Proof. reflexivity. Qed.

Example encodeURIComponent_unicode :
  Hook.encodeURIComponent [0x20AC%N] = Return "%E2%82%AC"
  ∧ Hook.encodeURIComponent [0xD83D%N; 0xDE00%N] = Return "%F0%9F%98%80"
  ∧ Hook.encodeURIComponent [0x61%N; 0xDE00%N; 0x62%N] = Throw Hook.URIError.
Proof. repeat split. Qed.

Section BridgeClaims.
Import Bridge Samples.

Lemma metrics_inserted (cs : list clock) :
  ((λ c, (c, Metrics)) <$> cs) ≫= inserted
  = (λ c, record "metrics-served" (JObj ∅) (now c)) <$> cs.
Proof. induction cs as [|c cs IH]; [done|]. cbn. by f_equal. Qed.

Lemma optimize_log d c B (activities : list jsval) :
  fst (optimize d c (Some B) activities)
  = take 20 (record "optimize-triggered" B (now c) :: activities).
Proof. cbn [optimize fst]. by rewrite addActivity_take. Qed.

End BridgeClaims.

(** C4: the activity log of a bridge service never holds more than 20
    records after any sequence of handled requests; an insertion below
    capacity drops nothing and an insertion at capacity drops exactly the
    oldest (last) record; after 25 metrics requests on a fresh service the
    activities route answers with the 20 newest records, the 5 oldest gone. *)
Theorem activity_log_bounded :
  (∀ d reqs, (length (Bridge.run d reqs []) ≤ 20)%nat)
  ∧ (∀ type payload t (activities : list jsval),
       (length activities < 20)%nat →
       Bridge.addActivity type payload t activities
       = Bridge.record type (default (JObj ∅) payload) t :: activities)
  ∧ (∀ type payload t (activities : list jsval),
       length activities = 20%nat →
       ∃ kept oldest,
         activities = kept ++ [oldest]
         ∧ Bridge.addActivity type payload t activities
           = Bridge.record type (default (JObj ∅) payload) t :: kept)
  ∧ (∀ d (cs : list Bridge.clock) c,
       length cs = 25%nat →
       let log := Bridge.run d ((λ c, (c, Bridge.Metrics)) <$> cs) [] in
       snd (Bridge.handle d c Bridge.Activities log)
       = Bridge.res_json (Bridge.obj [("activities", JArr log)])
       ∧ length log = 20%nat
       ∧ log = (λ c, Bridge.record "metrics-served" (JObj ∅) (Bridge.now c))
               <$> reverse (drop 5 cs)).
Proof.
  split; [|split; [|split]].
  - intros d reqs. rewrite run_fresh, length_take. lia.
  - intros type payload t activities Hlen.
    rewrite addActivity_take. apply take_ge. cbn [length]. lia.
  - intros type payload t activities Hlen.
    destruct (decide (activities = [])) as [->|Hne]; [done|].
    apply exists_last in Hne as (kept & oldest & ->).
    exists kept, oldest. split; [done|].
    rewrite length_app in Hlen. cbn in Hlen.
    rewrite addActivity_take. cbn [take]. f_equal.
    rewrite take_app_le, take_ge by lia. done.
  - intros d cs c Hlen log.
    assert (log = (λ c, Bridge.record "metrics-served" (JObj ∅) (Bridge.now c))
                  <$> reverse (drop 5 cs)) as Hlog.
    { subst log. rewrite run_fresh, metrics_inserted.
      rewrite <-fmap_reverse, <-fmap_take, take_reverse, Hlen. done. }
    split; [done|]. split; [|done].
    rewrite Hlog, length_fmap, length_reverse, length_drop. lia.
Qed.

Lemma activity_log_bounded_witness :
  Bridge.addActivity "metrics-served" None 7 []
  = [Bridge.record "metrics-served" (JObj ∅) 7]
  ∧ (∃ kept oldest,
       Bridge.run Bridge.Affiliate
         ((λ c, (c, Bridge.Metrics)) <$> Samples.ticks 0 20) [] = kept ++ [oldest]
       ∧ Bridge.addActivity "optimize-triggered" (Some Samples.foo1) 99
           (Bridge.run Bridge.Affiliate
              ((λ c, (c, Bridge.Metrics)) <$> Samples.ticks 0 20) [])
         = Bridge.record "optimize-triggered" Samples.foo1 99 :: kept)
  ∧ Bridge.run Bridge.Neural ((λ c, (c, Bridge.Metrics)) <$> Samples.ticks 0 25) []
    = (λ c, Bridge.record "metrics-served" (JObj ∅) (Bridge.now c))
      <$> reverse (drop 5 (Samples.ticks 0 25)).
Proof.
  pose proof activity_log_bounded as (_ & Hbelow & Hfull & Hmetrics).
  split; [|split].
  - apply (Hbelow "metrics-served" None 7 []). cbn. lia.
  - apply (Hfull "optimize-triggered" (Some Samples.foo1) 99). reflexivity.
  - apply (Hmetrics Bridge.Neural (Samples.ticks 0 25) Samples.noon). reflexivity.
Defined.

(** C5, as stated, fails: for the body [{"foo":1}] the record put in the log
    has no [payload] property at all, so its payload is not the body. *)
Lemma optimize_payload_not_nested :
  ¬ (∃ r, head (fst (Bridge.optimize Bridge.Affiliate Samples.noon
                       (Some Samples.foo1) [])) = Some r
          ∧ prop r "type" = Some (JStr "optimize-triggered")
          ∧ prop r "payload" = Some Samples.foo1).
Proof.
  intros (r & Hr & _ & Hp).
  rewrite optimize_log in Hr. injection Hr as <-.
  rewrite record_lookup in Hp. discriminate Hp.
Qed.

(** C5, amended: for every JSON body [B], the optimize route puts in front of
    the log a record that carries every property of [B] other than
    [timestamp] as a property of its own with the same value, whose type is
    ["optimize-triggered"] when [B] has no property [type], and whose
    timestamp is the insertion time; it answers
    [{ success: true, message: <confirmation of the domain> }]. *)
Theorem optimize_records_body_properties d c (B : jsval) (activities : list jsval) :
  let r := Bridge.record "optimize-triggered" B (Bridge.now c) in
  fst (Bridge.optimize d c (Some B) activities) = take 20 (r :: activities)
  ∧ head (fst (Bridge.optimize d c (Some B) activities)) = Some r
  ∧ (∀ k v, k ≠ "timestamp" → own_props B !! k = Some v → prop r k = Some v)
  ∧ (own_props B !! "type" = None → prop r "type" = Some (JStr "optimize-triggered"))
  ∧ prop r "timestamp" = Some (JNum (inject_Z (Bridge.now c)))
  ∧ snd (Bridge.optimize d c (Some B) activities)
    = Bridge.res_json (Bridge.obj [("success", JBool true);
                                   ("message", JStr (Bridge.optimize_message d))]).
Proof.
  intros r. split; [apply optimize_log|]. split; [by rewrite optimize_log|].
  split; [|split; [|split]].
  - intros k v Hk HB. subst r. rewrite record_lookup, decide_False, HB; done.
  - intros HB. subst r. by rewrite record_lookup, HB.
  - subst r. by rewrite record_lookup.
  - done.
Qed.

Lemma optimize_records_body_properties_witness :
  prop (Bridge.record "optimize-triggered" Samples.foo1 (Bridge.now Samples.noon)) "foo"
  = Some (JNum 1)
  ∧ prop (Bridge.record "optimize-triggered" Samples.foo1 (Bridge.now Samples.noon)) "type"
    = Some (JStr "optimize-triggered").
Proof.
  pose proof (optimize_records_body_properties Bridge.Affiliate Samples.noon
                Samples.foo1 []) as (_ & _ & Hkeys & Htype & _).
  split.
  - apply Hkeys; [discriminate | reflexivity].
  - apply Htype. reflexivity.
Defined.

(** C6: the activities route answers with the log as it stands and leaves
    it as it was; the log of a service lists the records inserted so far
    from the most recent to the oldest (the 20 most recent of them). *)
Theorem get_activities_newest_first d c reqs (activities : list jsval) :
  Bridge.handle d c Bridge.Activities activities
  = (activities, Bridge.res_json (Bridge.obj [("activities", JArr activities)]))
  ∧ Bridge.run d reqs [] = take 20 (reverse (reqs ≫= Bridge.inserted))
  ∧ Bridge.run d (reqs ++ [(c, Bridge.Activities)]) [] = Bridge.run d reqs [].
Proof.
  split; [done|]. split; [apply run_fresh|].
  rewrite !run_fresh, bind_app. cbn. by rewrite (right_id_L [] (++)).
Qed.

(** C9, as stated, fails: for the body [{"payload":1}] the record does have a
    [payload] property, the one spread from the body. *)
Lemma spread_keeps_payload_key :
  ∃ r, head (fst (Bridge.optimize Bridge.Neural Samples.noon
                    (Some Samples.payload1) [])) = Some r
       ∧ prop r "payload" = Some (JNum 1)
       ∧ ¬ (prop r "payload" = None).
Proof.
  eexists. split; [by rewrite optimize_log|].
  rewrite record_lookup. split; [reflexivity | discriminate].
Qed.

(** C9, amended: for every optimize body [B] the stored record is
    [{ type, ...B, timestamp }]: the properties of [B] sit at top level, so
    the record has a [payload] property only if [B] has one (with the value
    [B] gives it); a property [type] of [B] replaces ["optimize-triggered"],
    and the insertion time replaces a property [timestamp] of [B]. *)
Theorem optimize_record_is_spread d c (B : jsval) (activities : list jsval) :
  ∃ r, head (fst (Bridge.optimize d c (Some B) activities)) = Some r
       ∧ r = JObj (<[ "timestamp" := JNum (inject_Z (Bridge.now c)) ]>
                     (own_props B ∪ {[ "type" := JStr "optimize-triggered" ]}))
       ∧ prop r "payload" = own_props B !! "payload"
       ∧ (∀ v, own_props B !! "type" = Some v → prop r "type" = Some v)
       ∧ prop r "timestamp" = Some (JNum (inject_Z (Bridge.now c))).
Proof.
  exists (Bridge.record "optimize-triggered" B (Bridge.now c)).
  split; [by rewrite optimize_log|]. split; [done|].
  rewrite !record_lookup. cbn. split; [by destruct (own_props B !! "payload")|].
  split; [|done]. by intros v ->.
Qed.

Lemma optimize_record_is_spread_witness :
  ∃ r, head (fst (Bridge.optimize Bridge.Neural Samples.noon
                    (Some Samples.typed) [])) = Some r
       ∧ prop r "type" = Some (JStr "custom")
       ∧ prop r "timestamp" = Some (JNum (inject_Z (Bridge.now Samples.noon))).
Proof.
  destruct (optimize_record_is_spread Bridge.Neural Samples.noon Samples.typed [])
    as (r & Hr & _ & _ & Htype & Hts).
  exists r. split; [exact Hr|]. split; [|exact Hts].
  apply Htype. reflexivity.
Defined.

(** ** Gateway route *)

Section GatewayFacts.
Import Fetch Gateway.
Variable env : option string.
Variable net : network.

Lemma truthy_Some (X : string) : X ≠ "" → truthy (Some X) = true.
Proof. intros HX. cbn. by rewrite bool_decide_eq_false_2. Qed.

Lemma truthy_false (x : option string) :
  truthy x = false ↔ x = None ∨ x = Some "".
Proof.
  split.
  - intros H. destruct x as [s|]; [|by left]. right. cbn in H.
    apply negb_false_iff, bool_decide_eq_true in H. by subst.
  - by intros [->| ->].
Qed.

(** With a target, [GET] is one recorded fetch followed by [res.json()]. *)
Lemma GET_forwards req X calls :
  get "target" (searchParams req) = Some X → X ≠ "" →
  GET env net req calls
  = let url := BACKEND_URL env +:+ "/" +:+ X in
    let init := mkInit "GET" None [] in
    (calls ++ [(url, init)],
     match net url (Some init) with
     | Return res =>
         match json res with
         | Return data => Return (mkNextResponse 200 data)
         | Throw e => Throw e
         end
     | Throw e => Throw e
     end).
Proof.
  intros Hget HX. unfold GET. rewrite Hget, truthy_Some by done.
  cbn [negb interpolate]. unfold fetch. run_eff.
  destruct (net _ _) as [res|e]; [|done].
  by destruct (json res).
Qed.

Lemma POST_forwards req X calls :
  get "target" (searchParams req) = Some X → X ≠ "" →
  POST env net req calls
  = let url := BACKEND_URL env +:+ "/" +:+ X in
    let init := mkInit "POST" (Some (text req)) [("Content-Type", "application/json")] in
    (calls ++ [(url, init)],
     match net url (Some init) with
     | Return res =>
         match json res with
         | Return data => Return (mkNextResponse 200 data)
         | Throw e => Throw e
         end
     | Throw e => Throw e
     end).
Proof.
  intros Hget HX. unfold POST. rewrite Hget, truthy_Some by done.
  cbn [negb interpolate]. unfold fetch. run_eff.
  destruct (net _ _) as [res|e]; [|done].
  by destruct (json res).
Qed.

End GatewayFacts.

(** C1: for every non-empty target [X], [GET /api/universal?target=X] makes
    exactly one outbound call, a [GET] to [<BACKEND_URL>/X], and when the
    upstream answers with a JSON body the gateway answers with that body and
    status 200, whatever the upstream's status. *)
Theorem GET_relays_upstream_body env net req X calls :
  Gateway.get "target" (Gateway.searchParams req) = Some X → X ≠ "" →
  let url := Gateway.BACKEND_URL env +:+ "/" +:+ X in
  let init := Fetch.mkInit "GET" None [] in
  fst (Gateway.GET env net req calls) = calls ++ [(url, init)]
  ∧ ∀ res data,
      net url (Some init) = Return res → Fetch.json res = Return data →
      snd (Gateway.GET env net req calls)
      = Return (Gateway.mkNextResponse 200 data).
Proof.
  intros Hget HX url init. rewrite (GET_forwards env net req X calls Hget HX).
  split; [done|]. intros res data Hnet Hjson.
  cbn [snd]. fold url init. by rewrite Hnet, Hjson.
Qed.

Lemma GET_relays_upstream_body_witness :
  Gateway.GET None NetSamples.net_500 NetSamples.to_metrics []
  = ([("http://localhost:8000/neural/metrics", Fetch.mkInit "GET" None [])],
     Return (Gateway.mkNextResponse 200 NetSamples.boom)).
Proof.
  destruct (GET_relays_upstream_body None NetSamples.net_500 NetSamples.to_metrics
              "neural/metrics" []) as [Hcalls Hbody];
    [reflexivity | discriminate |].
  apply injective_projections; cbn [fst snd].
  - exact Hcalls.
  - exact (Hbody (Fetch.mkResponse 500 (Return NetSamples.boom)) NetSamples.boom
             eq_refl eq_refl).
Defined.

(** C2: a gateway request, [GET] or [POST], whose [target] parameter is
    absent or empty is answered with status 400 and the body
    [{ error: "No target specified" }], and no outbound call is made. *)
Theorem missing_target_rejected env net req calls :
  Gateway.get "target" (Gateway.searchParams req) = None
  ∨ Gateway.get "target" (Gateway.searchParams req) = Some "" →
  Gateway.GET env net req calls
  = (calls, Return (Gateway.mkNextResponse 400
                      (JObj {[ "error" := JStr "No target specified" ]})))
  ∧ Gateway.POST env net req calls
    = (calls, Return (Gateway.mkNextResponse 400
                        (JObj {[ "error" := JStr "No target specified" ]}))).
Proof.
  intros Htarget%truthy_false.
  unfold Gateway.GET, Gateway.POST. by rewrite Htarget.
Qed.

Lemma missing_target_rejected_witness :
  Gateway.GET None NetSamples.net_500 NetSamples.no_query []
  = ([], Return (Gateway.mkNextResponse 400
                   (JObj {[ "error" := JStr "No target specified" ]})))
  ∧ Gateway.POST None NetSamples.net_500 NetSamples.empty_target []
    = ([], Return (Gateway.mkNextResponse 400
                     (JObj {[ "error" := JStr "No target specified" ]}))).
Proof.
  split.
  - apply (missing_target_rejected None NetSamples.net_500 NetSamples.no_query []).
    left. reflexivity.
  - apply (missing_target_rejected None NetSamples.net_500 NetSamples.empty_target []).
    right. reflexivity.
Defined.

(** C3, as stated, fails: when the upstream cannot be reached, [GET] with a
    valid target ends by throwing the network error; it produces no response. *)
Lemma GET_lets_failure_escape :
  snd (Gateway.GET None NetSamples.net_down NetSamples.to_metrics [])
  = Throw (mkError "TypeError" "fetch failed")
  ∧ ¬ (∃ response,
         snd (Gateway.GET None NetSamples.net_down NetSamples.to_metrics [])
         = Return response).
Proof. split; [reflexivity|]. intros [response H]. discriminate H. Qed.

(** C3, amended: for every gateway request with a valid target, if the
    upstream call throws (the fetch fails, or the body does not parse as
    JSON), the handler catches nothing: it has made its one outbound call and
    then throws that same error, without a response. *)
Theorem upstream_failure_escapes env net req X calls e :
  Gateway.get "target" (Gateway.searchParams req) = Some X → X ≠ "" →
  let url := Gateway.BACKEND_URL env +:+ "/" +:+ X in
  let get_init := Fetch.mkInit "GET" None [] in
  let post_init :=
    Fetch.mkInit "POST" (Some (Gateway.text req)) [("Content-Type", "application/json")] in
  (Fetch.throws (net url (Some get_init)) e →
   Gateway.GET env net req calls = (calls ++ [(url, get_init)], Throw e))
  ∧ (Fetch.throws (net url (Some post_init)) e →
     Gateway.POST env net req calls = (calls ++ [(url, post_init)], Throw e)).
Proof.
  intros Hget HX url get_init post_init.
  rewrite (GET_forwards env net req X calls Hget HX).
  rewrite (POST_forwards env net req X calls Hget HX).
  cbv zeta. fold url get_init post_init. unfold Fetch.throws.
  split; intros Hthrows.
  - destruct (net url (Some get_init)) as [res|e']; [by rewrite Hthrows | by subst].
  - destruct (net url (Some post_init)) as [res|e']; [by rewrite Hthrows | by subst].
Qed.

Lemma upstream_failure_escapes_witness :
  Gateway.GET None NetSamples.net_html NetSamples.to_metrics []
  = ([("http://localhost:8000/neural/metrics", Fetch.mkInit "GET" None [])],
     Throw (mkError "SyntaxError" "Unexpected token < in JSON"))
  ∧ Gateway.POST None NetSamples.net_down NetSamples.to_metrics []
    = ([("http://localhost:8000/neural/metrics",
         Fetch.mkInit "POST" (Some "") [("Content-Type", "application/json")])],
       Throw (mkError "TypeError" "fetch failed")).
Proof.
  split.
  - apply (upstream_failure_escapes None NetSamples.net_html NetSamples.to_metrics
             "neural/metrics" []); [reflexivity | discriminate | reflexivity].
  - apply (upstream_failure_escapes None NetSamples.net_down NetSamples.to_metrics
             "neural/metrics" []); [reflexivity | discriminate | reflexivity].
Defined.

(** ** The fetch hook *)

Section HookFacts.
Import Fetch Hook.
Variable net : network.

Lemma ok_false_iff (res : Response) :
  ok res = false ↔ status res < 200 ∨ 299 < status res.
Proof. unfold ok. rewrite andb_false_iff, !Z.leb_gt. done. Qed.


(** The ways a call of [fetchUniversal] can go, and where each leaves the
    state: whatever it was before, it is overwritten. *)
Lemma fetchUniversal_cases target opts s :
  fetchUniversal net target opts s
  = match encodeURIComponent target with
    | Throw e => (mkState false (error_after e None) JNull, Throw (rethrown e))
    | Return encoded =>
        match net ("/api/universal?target=" +:+ encoded) opts with
        | Throw e => (mkState false (error_after e None) JNull, Throw (rethrown e))
        | Return res =>
            if ok res then
              match json res with
              | Return j => (mkState false None j, Return j)
              | Throw e =>
                  (mkState false (error_after e None) JNull, Throw (rethrown e))
              end
            else (mkState false (Some (Str "API error")) JNull,
                  Throw (new_Error "API error"))
        end
    end.
Proof.
  assert (∀ e : thrown,
            match message_of e with
            | Return m => (mkState false m JNull, @Throw jsval e)
            | Throw e' => (mkState false None JNull, Throw e')
            end
            = (mkState false (error_after e None) JNull, Throw (rethrown e)))
    as Hcaught.
  { intros e. unfold error_after, rethrown. by destruct (message_of e). }
  unfold fetchUniversal, setLoading, setError, setData. run_eff.
  cbn [loading error data].
  destruct (encodeURIComponent target) as [encoded|e].
  2:{ rewrite <-Hcaught. by destruct (message_of e). }
  destruct (net _ opts) as [res|e].
  2:{ rewrite <-Hcaught. by destruct (message_of e). }
  destruct (ok res); cbn [negb]; [|done].
  destruct (json res) as [j|e]; [done|].
  rewrite <-Hcaught. by destruct (message_of e).
Qed.


End HookFacts.




(** C8: whichever way a call of [fetchUniversal] ends, it ends with
    [loading] false: either it returns the parsed body, with the state
    holding it, or it throws, with [data] null and [error] holding the
    message of what it throws, or null if the message of what it caught
    could not be read. *)
Theorem fetchUniversal_clears_loading net target opts s :
  Hook.loading (fst (Hook.fetchUniversal net target opts s)) = false
  ∧ match snd (Hook.fetchUniversal net target opts s) with
    | Return j =>
        fst (Hook.fetchUniversal net target opts s) = Hook.mkState false None j
    | Throw e =>
        fst (Hook.fetchUniversal net target opts s)
        = Hook.mkState false (Hook.error_after e None) JNull
        ∨ fst (Hook.fetchUniversal net target opts s)
          = Hook.mkState false None JNull
    end.
Proof.
  assert (∀ e : thrown,
            Hook.mkState false (Hook.error_after e None) JNull
            = Hook.mkState false (Hook.error_after (Hook.rethrown e) None) JNull
            ∨ Hook.mkState false (Hook.error_after e None) JNull
              = Hook.mkState false None JNull) as Hcaught.
  { intros e. unfold Hook.error_after, Hook.rethrown.
    destruct (Hook.message_of e) as [m|e'] eqn:He; [left; by rewrite He | by right]. }
  rewrite fetchUniversal_cases.
  destruct (Hook.encodeURIComponent target) as [encoded|e];
    [|split; [done | apply Hcaught]].
  destruct (net _ opts) as [res|e]; [|split; [done | apply Hcaught]].
  destruct (Fetch.ok res); [|split; [done | by left]].
  destruct (Fetch.json res); split; done || apply Hcaught.
Qed.

(** C10, as stated, fails: a target with an unpaired surrogate makes
    [encodeURIComponent] throw inside the [try] block, and the error state
    is its message, not ["API error"], although nothing was fetched and the
    network at hand has neither a network failure nor a body that fails to
    parse. *)
Lemma malformed_target_other_message :
  Hook.error (fst (Hook.fetchUniversal NetSamples.net_500 [0xD800%N] None Hook.initial))
  = Some (Hook.Str "URI malformed")
  ∧ "URI malformed" ≠ "API error"
  ∧ ¬ (∃ url opts e, Fetch.throws (NetSamples.net_500 url opts) e).
Proof.
  split; [reflexivity|]. split; [discriminate|].
  intros (url & opts & e & H). discriminate H.
Qed.

(** C10, amended: for every response with a status outside 200-299 the
    error state is the fixed string ["API error"], whatever the status and
    the body; an error state with another message is the message of what
    was thrown by the encoding of the target, by the fetch, or by the
    parsing of the body. *)
Theorem non_2xx_is_API_error net target opts s :
  (∀ encoded res,
     Hook.encodeURIComponent target = Return encoded →
     net ("/api/universal?target=" +:+ encoded) opts = Return res →
     Fetch.status res < 200 ∨ 299 < Fetch.status res →
     Hook.error (fst (Hook.fetchUniversal net target opts s))
     = Some (Hook.Str "API error"))
  ∧ (∀ m : string,
       Hook.error (fst (Hook.fetchUniversal net target opts s)) = Some (Hook.Str m) →
       m ≠ "API error" →
       ∃ e, Hook.message_of e = Return (Some (Hook.Str m))
            ∧ (Hook.encodeURIComponent target = Throw e
               ∨ ∃ encoded,
                   Hook.encodeURIComponent target = Return encoded
                   ∧ Fetch.throws
                       (net ("/api/universal?target=" +:+ encoded) opts) e)).
Proof.
  assert (∀ (e : thrown) (m : string),
            Hook.error_after e None = Some (Hook.Str m) →
            Hook.message_of e = Return (Some (Hook.Str m))) as Hread.
  { intros e m. unfold Hook.error_after.
    destruct (Hook.message_of e); [by intros ->|done]. }
  rewrite fetchUniversal_cases. split.
  - intros encoded res -> -> Hstatus%ok_false_iff. by rewrite Hstatus.
  - intros m Herr Hm.
    destruct (Hook.encodeURIComponent target) as [encoded|e]; cbn in Herr.
    + destruct (net _ opts) as [res|e] eqn:Hnet; cbn in Herr.
      * destruct (Fetch.ok res); cbn in Herr; [|congruence].
        destruct (Fetch.json res) as [j|e] eqn:Hjson; cbn in Herr; [done|].
        exists e. split; [by apply Hread|]. right. exists encoded.
        split; [done|]. by rewrite Hnet.
      * exists e. split; [by apply Hread|]. right. exists encoded.
        split; [done|]. by rewrite Hnet.
    + exists e. split; [by apply Hread|]. by left.
Qed.

Lemma non_2xx_is_API_error_witness :
  Hook.error (fst (Hook.fetchUniversal NetSamples.net_500 (Hook.js "neural/metrics")
                     None Hook.initial)) = Some (Hook.Str "API error")
  ∧ ∃ e, Hook.message_of e = Return (Some (Hook.Str "fetch failed"))
         ∧ (Hook.encodeURIComponent (Hook.js "affiliate/metrics") = Throw e
            ∨ ∃ encoded,
                Hook.encodeURIComponent (Hook.js "affiliate/metrics") = Return encoded
                ∧ Fetch.throws
                    (NetSamples.net_down ("/api/universal?target=" +:+ encoded) None) e).
Proof.
  split.
  - apply (non_2xx_is_API_error NetSamples.net_500 (Hook.js "neural/metrics")
             None Hook.initial)
      with (encoded := "neural%2Fmetrics")
           (res := Fetch.mkResponse 500 (Return NetSamples.boom));
      [reflexivity | reflexivity | right; reflexivity].
  - apply (non_2xx_is_API_error NetSamples.net_down (Hook.js "affiliate/metrics")
             None Hook.initial);
      [reflexivity | discriminate].
Defined.

(** * Further properties *)

(** ** The activity log *)

Section LogFacts.
Import Bridge Log.

Lemma length_inserted reqs :
  length (reqs ≫= inserted) = length (logged reqs).
Proof.
  unfold logged. induction reqs as [|[c r] reqs IH]; [done|].
  cbn. rewrite !length_app, IH. by destruct r.
Qed.

Lemma timestamps_inserted reqs :
  timestamps (reqs ≫= inserted)
  = (λ c, Some (JNum (inject_Z (now c)))) <$> logged reqs.
Proof.
  unfold timestamps, logged. induction reqs as [|[c r] reqs IH]; [done|].
  cbn. rewrite !fmap_app, IH. f_equal.
  destruct r; cbn [inserted logs snd fst fmap list_fmap]; [| |done];
    by rewrite record_lookup.
Qed.

Lemma StronglySorted_sublist {A} (R : relation A) (l1 l2 : list A) :
  l1 `sublist_of` l2 → StronglySorted R l2 → StronglySorted R l1.
Proof.
  induction 1 as [|x l1 l2 Hsub IH|x l1 l2 Hsub IH]; intros Hsorted; [done|..].
  - apply StronglySorted_inv in Hsorted as [Hl2 Hx].
    constructor; [by apply IH|].
    rewrite Forall_forall in Hx. apply Forall_forall. intros y Hy.
    apply Hx. by eapply elem_of_sublist.
  - apply StronglySorted_inv in Hsorted as [Hl2 _]. by apply IH.
Qed.

Lemma StronglySorted_reverse {A} (R : relation A) (l : list A) :
  StronglySorted R l → StronglySorted (flip R) (reverse l).
Proof.
  induction 1 as [|x l Hl IH Hx]; [constructor|].
  rewrite reverse_cons. apply StronglySorted_app_2; [|exact IH|repeat constructor].
  intros x1 x2 Hx1 ->%list_elem_of_singleton. rewrite elem_of_reverse in Hx1.
  rewrite Forall_forall in Hx. unfold flip. by apply Hx.
Qed.

Lemma logged_sublist reqs : logged reqs `sublist_of` reqs.*1.
Proof.
  unfold logged. induction reqs as [|[c r] reqs IH]; [done|].
  cbn. destruct (logs r); cbn; by constructor.
Qed.

End LogFacts.

(** X1: on a fresh service the log holds as many records as requests have
    logged (metrics and optimize requests), up to 20. *)
Theorem log_length d reqs :
  length (Bridge.run d reqs []) = (length (Log.logged reqs) `min` 20)%nat.
Proof.
  rewrite run_fresh, length_take, length_reverse, length_inserted. lia.
Qed.

(** X2: once 20 requests have logged, nothing of the log they started from
    is left: the log is the one a fresh service would have. *)
Theorem log_forgets d reqs (activities : list jsval) :
  (length activities ≤ 20)%nat →
  (20 ≤ length (Log.logged reqs))%nat →
  Bridge.run d reqs activities = Bridge.run d reqs [].
Proof.
  intros Hlen Hlogged.
  rewrite <-(take_ge activities 20) at 1 by done.
  rewrite run_take, run_fresh, take_app_le; [done|].
  by rewrite length_reverse, length_inserted.
Qed.

Lemma log_forgets_witness :
  Bridge.run Bridge.Neural ((λ c, (c, Bridge.Metrics)) <$> Samples.ticks 0 20)
    [Bridge.record "optimize-triggered" Samples.foo1 5]
  = Bridge.run Bridge.Neural ((λ c, (c, Bridge.Metrics)) <$> Samples.ticks 0 20) [].
Proof. apply log_forgets; vm_compute; lia. Defined.

(** X3: the timestamps in the log are the clock readings of the requests
    that logged, the most recent first, whatever the bodies said; with a
    clock that never runs backwards they are in descending order. *)
Theorem log_timestamps d reqs :
  Log.timestamps (Bridge.run d reqs [])
  = (λ c, Some (JNum (inject_Z (Bridge.now c))))
    <$> take 20 (reverse (Log.logged reqs))
  ∧ (StronglySorted (λ c1 c2, Bridge.now c1 ≤ Bridge.now c2) reqs.*1 →
     StronglySorted (λ c1 c2, Bridge.now c2 ≤ Bridge.now c1)
       (take 20 (reverse (Log.logged reqs)))).
Proof.
  split.
  - rewrite run_fresh. unfold Log.timestamps.
    rewrite fmap_take, fmap_reverse.
    change ((λ r, prop r "timestamp") <$> ?l) with (Log.timestamps l).
    by rewrite timestamps_inserted, <-fmap_reverse, <-fmap_take.
  - intros Hsorted.
    apply (StronglySorted_sublist _ _ (reverse (Log.logged reqs)));
      [apply sublist_take|].
    apply (StronglySorted_reverse (λ c1 c2, Bridge.now c1 ≤ Bridge.now c2)).
    by eapply StronglySorted_sublist; [apply logged_sublist|].
Qed.

Lemma log_timestamps_witness :
  StronglySorted (λ c1 c2, Bridge.now c2 ≤ Bridge.now c1)
    (take 20 (reverse (Log.logged
       [(Bridge.mkClock "a" 1, Bridge.Metrics);
        (Bridge.mkClock "b" 1, Bridge.Activities);
        (Bridge.mkClock "c" 4, Bridge.Optimize (Some Samples.typed))]))).
Proof.
  apply (log_timestamps Bridge.Neural).
  cbn. repeat constructor; cbn; lia.
Defined.

(** ** The stored record *)

Section RecordFacts.
Import Bridge.

Lemma record_type_is_Some type (B : jsval) t :
  is_Some (prop (record type B t) "type").
Proof.
  rewrite record_lookup. cbn.
  destruct (own_props B !! "type"); by eexists.
Qed.

Lemma inserted_wellformed (c : clock) r (x : jsval) :
  x ∈ inserted (c, r) →
  is_Some (prop x "type") ∧ prop x "timestamp" = Some (JNum (inject_Z (now c))).
Proof.
  destruct r as [|b|]; cbn; intros Hx.
  - apply list_elem_of_singleton in Hx as ->.
    split; [apply record_type_is_Some | by rewrite record_lookup].
  - apply list_elem_of_singleton in Hx as ->.
    split; [apply record_type_is_Some | by rewrite record_lookup].
  - by apply elem_of_nil in Hx.
Qed.

Lemma pretty_N_char_digit x : (48 ≤ N_of_ascii (pretty_N_char x) ≤ 57)%N.
Proof. unfold pretty_N_char. repeat case_match; cbn; lia. Qed.

Lemma pretty_N_go_digit x s :
  (0 < x)%N ∨ starts_with_digit s → starts_with_digit (pretty_N_go x s).
Proof.
  revert s. induction (N.lt_wf_0 x) as [x _ IH]; intros s Hs.
  assert (x = 0 ∨ 0 < x)%N as [->|Hx] by lia.
  - rewrite pretty_N_go_0. destruct Hs as [?|?]; [lia|done].
  - rewrite pretty_N_go_step by done. apply IH; [by apply N.div_lt|].
    right. apply pretty_N_char_digit.
Qed.

Lemma pretty_nat_digit (i : nat) : starts_with_digit (pretty i).
Proof.
  unfold pretty, pretty_nat, pretty, pretty_N.
  case_decide; [cbn; lia|]. apply pretty_N_go_digit. lia.
Qed.

Lemma indexed_lookup (l : list jsval) (i : nat) :
  indexed l !! pretty i = l !! i.
Proof.
  unfold indexed.
  assert (NoDup (imap (λ (i : nat) (v : jsval), (pretty i, v)) l).*1) as Hnodup.
  { rewrite fmap_imap.
    rewrite (imap_ext _ (λ i _, pretty i)) by done.
    rewrite imap_seq_0.
    apply (NoDup_fmap_2 _), NoDup_seq. }
  destruct (l !! i) as [v|] eqn:Hi.
  - apply elem_of_list_to_map_1; [done|].
    by apply (elem_of_lookup_imap_2 (λ (i : nat) v, (pretty i, v))).
  - apply not_elem_of_list_to_map_1.
    intros Hin. apply list_elem_of_fmap in Hin as ((k & v) & Hk & Hin).
    apply elem_of_lookup_imap in Hin as (j & y & Heq & Hj).
    injection Heq as -> ->. cbn in Hk. apply (inj pretty) in Hk as ->.
    congruence.
Qed.

End RecordFacts.

(** X4: every record in the log of a service has a [type] property, and its
    [timestamp] is the clock reading of one of the requests served. *)
Theorem log_records_wellformed d reqs (r : jsval) :
  r ∈ Bridge.run d reqs [] →
  is_Some (prop r "type")
  ∧ ∃ c, c ∈ reqs.*1 ∧ prop r "timestamp" = Some (JNum (inject_Z (Bridge.now c))).
Proof.
  rewrite run_fresh. intros Hr.
  eapply elem_of_sublist in Hr; [|apply sublist_take].
  rewrite elem_of_reverse in Hr.
  apply list_elem_of_bind in Hr as ([c q] & Hr & Hcq).
  apply inserted_wellformed in Hr as [Htype Hts].
  split; [done|]. exists c. split; [|done].
  apply list_elem_of_fmap. by exists (c, q).
Qed.

Lemma log_records_wellformed_witness :
  is_Some (prop (Bridge.record "optimize-triggered" Samples.typed 1753012800000) "type")
  ∧ ∃ c, c ∈ [(Samples.noon, Bridge.Optimize (Some Samples.typed))].*1
         ∧ prop (Bridge.record "optimize-triggered" Samples.typed 1753012800000)
             "timestamp" = Some (JNum (inject_Z (Bridge.now c))).
Proof.
  apply (log_records_wellformed Bridge.Affiliate
           [(Samples.noon, Bridge.Optimize (Some Samples.typed))]).
  cbn. apply list_elem_of_singleton. reflexivity.
Defined.

(** X5: the properties of a stored record are [type], [timestamp] and the
    own properties of the payload, and no other. *)
Theorem record_keys type (B : jsval) t k :
  is_Some (prop (Bridge.record type B t) k)
  ↔ k = "type" ∨ k = "timestamp" ∨ is_Some (own_props B !! k).
Proof.
  rewrite record_lookup.
  destruct (decide (k = "timestamp")) as [->|Hts].
  { split; [by right; left | by eexists]. }
  destruct (own_props B !! k) as [v|] eqn:HB.
  { split; [right; right; by eexists | by eexists]. }
  destruct (decide (k = "type")) as [->|Hty].
  { split; [by left | by eexists]. }
  split; [by intros [? [=]]|]. intros [?|[?|[? [=]]]]; done.
Qed.

(** X6: when the payload has a property [type], the record is the same
    whatever type the handler passes; a body [{"type":"metrics-served"}]
    posted to the optimize route leaves the log a metrics request leaves. *)
Theorem payload_type_decides_record type1 type2 (B : jsval) t d c
    (activities : list jsval) :
  (is_Some (own_props B !! "type") →
   Bridge.record type1 B t = Bridge.record type2 B t)
  ∧ fst (Bridge.optimize d c
           (Some (JObj {[ "type" := JStr "metrics-served" ]})) activities)
    = fst (Bridge.metrics d c activities).
Proof.
  assert (∀ ty1 ty2 (P : jsval), is_Some (own_props P !! "type") →
            Bridge.record ty1 P t = Bridge.record ty2 P t) as Hrec.
  { intros ty1 ty2 P [v Hv]. unfold Bridge.record. do 2 f_equal.
    apply map_eq. intros k. rewrite !lookup_union, !lookup_singleton.
    destruct (decide ("type" = k)) as [<-|Hk]; [by rewrite Hv|done]. }
  split; [apply Hrec|].
  cbn [Bridge.optimize Bridge.metrics fst]. rewrite !addActivity_take.
  cbn [default from_option id].
  assert (Bridge.record "optimize-triggered"
            (JObj {[ "type" := JStr "metrics-served" ]}) (Bridge.now c)
          = Bridge.record "metrics-served" (JObj ∅) (Bridge.now c)) as ->; [|done].
  unfold Bridge.record. cbn [own_props]. reflexivity.
Qed.

Lemma payload_type_decides_record_witness :
  Bridge.record "optimize-triggered" Samples.typed 7
  = Bridge.record "metrics-served" Samples.typed 7.
Proof.
  apply (payload_type_decides_record "optimize-triggered" "metrics-served"
           Samples.typed 7 Bridge.Neural Samples.noon []).
  eexists. reflexivity.
Defined.

(** X7: an array body is spread by index: the record has the element [i] of
    the array under the key [i], and the type the handler passes, since an
    array has no property [type]. *)
Theorem array_body_spread type (l : list jsval) t (i : nat) :
  prop (Bridge.record type (JArr l) t) (pretty i) = l !! i
  ∧ prop (Bridge.record type (JArr l) t) "type" = Some (JStr type).
Proof.
  assert (∀ k, ¬ starts_with_digit k → indexed l !! k = None) as Hother.
  { intros k Hk. unfold indexed. apply not_elem_of_list_to_map_1.
    intros Hin. apply list_elem_of_fmap in Hin as ((k' & v) & Hk' & Hin).
    apply elem_of_lookup_imap in Hin as (j & y & Heq & Hj).
    injection Heq as -> ->. cbn in Hk'. subst k.
    apply Hk, pretty_nat_digit. }
  pose proof (pretty_nat_digit i) as Hdigit.
  rewrite !record_lookup. cbn [own_props]. split.
  - rewrite indexed_lookup.
    destruct (decide (pretty i = "timestamp")) as [Heq|_];
      [rewrite Heq in Hdigit; cbn in Hdigit; lia|].
    destruct (l !! i); [done|].
    destruct (decide (pretty i = "type")) as [Heq|_]; [|done].
    rewrite Heq in Hdigit; cbn in Hdigit; lia.
  - rewrite Hother by (cbn; lia). done.
Qed.

(** ** The gateway, for every request *)

Section GatewayTotal.
Import Fetch Gateway.
Variable env : option string.
Variable net : network.

Lemma GET_rejects req calls :
  truthy (get "target" (searchParams req)) = false →
  GET env net req calls = (calls, Return (mkNextResponse 400 no_target)).
Proof. intros Htarget. unfold GET. by rewrite Htarget. Qed.

Lemma POST_rejects req calls :
  truthy (get "target" (searchParams req)) = false →
  POST env net req calls = (calls, Return (mkNextResponse 400 no_target)).
Proof. intros Htarget. unfold POST. by rewrite Htarget. Qed.

Lemma truthy_true (x : option string) :
  truthy x = true → ∃ X, x = Some X ∧ X ≠ "".
Proof.
  destruct x as [X|]; [|done]. cbn. intros HX%negb_true_iff%bool_decide_eq_false.
  by exists X.
Qed.

End GatewayTotal.

(** X8: for every non-empty target [X], [POST /api/universal?target=X] makes
    exactly one outbound call, a [POST] to [<BACKEND_URL>/X] carrying the
    request text as body and the header [Content-Type: application/json];
    when the upstream answers with a JSON body the gateway answers with that
    body and status 200, whatever the upstream's status. *)
Theorem POST_relays_upstream_body env net req X calls :
  Gateway.get "target" (Gateway.searchParams req) = Some X → X ≠ "" →
  let url := Gateway.BACKEND_URL env +:+ "/" +:+ X in
  let init := Fetch.mkInit "POST" (Some (Gateway.text req))
                [("Content-Type", "application/json")] in
  fst (Gateway.POST env net req calls) = calls ++ [(url, init)]
  ∧ ∀ res data,
      net url (Some init) = Return res → Fetch.json res = Return data →
      snd (Gateway.POST env net req calls)
      = Return (Gateway.mkNextResponse 200 data).
Proof.
  intros Hget HX url init. rewrite (POST_forwards env net req X calls Hget HX).
  split; [done|]. intros res data Hnet Hjson.
  cbn [snd]. fold url init. by rewrite Hnet, Hjson.
Qed.

Lemma POST_relays_upstream_body_witness :
  Gateway.POST None NetSamples.net_500 NetSamples.to_metrics []
  = ([("http://localhost:8000/neural/metrics",
       Fetch.mkInit "POST" (Some "") [("Content-Type", "application/json")])],
     Return (Gateway.mkNextResponse 200 NetSamples.boom)).
Proof.
  destruct (POST_relays_upstream_body None NetSamples.net_500 NetSamples.to_metrics
              "neural/metrics" []) as [Hcalls Hbody];
    [reflexivity | discriminate |].
  apply injective_projections; cbn [fst snd].
  - exact Hcalls.
  - exact (Hbody (Fetch.mkResponse 500 (Return NetSamples.boom)) NetSamples.boom
             eq_refl eq_refl).
Defined.

(** X9: a response of the gateway has status 400 or 200 and never the
    upstream's: 400 with the fixed error body when the target is missing,
    and otherwise 200 with the body the upstream sent. *)
Theorem gateway_status_400_or_200 env net req calls r :
  snd (Gateway.GET env net req calls) = Return r
  ∨ snd (Gateway.POST env net req calls) = Return r →
  (truthy (Gateway.get "target" (Gateway.searchParams req)) = false
   ∧ r = Gateway.mkNextResponse 400 Gateway.no_target)
  ∨ (truthy (Gateway.get "target" (Gateway.searchParams req)) = true
     ∧ Gateway.nr_status r = 200
     ∧ ∃ url init res,
         net url (Some init) = Return res
         ∧ Fetch.json res = Return (Gateway.nr_body r)).
Proof.
  destruct (truthy (Gateway.get "target" (Gateway.searchParams req))) eqn:Htarget.
  - apply truthy_true in Htarget as (X & Hget & HX).
    rewrite (GET_forwards env net req X calls Hget HX).
    rewrite (POST_forwards env net req X calls Hget HX). cbn [snd].
    intros [Hr|Hr]; right; (split; [done|]).
    + destruct (net _ _) as [res|e] eqn:Hnet; [|done].
      destruct (Fetch.json res) as [data|e] eqn:Hjson; [|done].
      injection Hr as <-. split; [done|]. by eexists _, _, res.
    + destruct (net _ _) as [res|e] eqn:Hnet; [|done].
      destruct (Fetch.json res) as [data|e] eqn:Hjson; [|done].
      injection Hr as <-. split; [done|]. by eexists _, _, res.
  - rewrite GET_rejects, POST_rejects by done. cbn [snd].
    intros [Hr|Hr]; left; (split; [done|]); by injection Hr.
Qed.

Lemma gateway_status_400_or_200_witness :
  truthy (Gateway.get "target" (Gateway.searchParams NetSamples.to_metrics)) = true
  ∧ Gateway.nr_status (Gateway.mkNextResponse 200 NetSamples.boom) = 200.
Proof.
  destruct (gateway_status_400_or_200 None NetSamples.net_500 NetSamples.to_metrics []
              (Gateway.mkNextResponse 200 NetSamples.boom))
    as [[Hno _]|(Hyes & Hstatus & _)].
  - left. reflexivity.
  - discriminate Hno.
  - split; assumption.
Defined.

(** X10: every gateway request extends the outbound calls by nothing when
    its target is absent or empty, and otherwise by exactly one call, to
    [<BACKEND_URL>/X] for the target [X] of that request; the calls made
    before are kept, in order. *)
Theorem gateway_calls_frame env net req calls :
  fst (Gateway.GET env net req calls)
  = calls ++ match Gateway.get "target" (Gateway.searchParams req) with
             | Some X =>
                 if bool_decide (X = "") then []
                 else [(Gateway.BACKEND_URL env +:+ "/" +:+ X,
                        Fetch.mkInit "GET" None [])]
             | None => []
             end
  ∧ fst (Gateway.POST env net req calls)
    = calls ++ match Gateway.get "target" (Gateway.searchParams req) with
               | Some X =>
                   if bool_decide (X = "") then []
                   else [(Gateway.BACKEND_URL env +:+ "/" +:+ X,
                          Fetch.mkInit "POST" (Some (Gateway.text req))
                            [("Content-Type", "application/json")])]
               | None => []
               end.
Proof.
  destruct (Gateway.get "target" (Gateway.searchParams req)) as [X|] eqn:Hget.
  - case_bool_decide as HX.
    + rewrite GET_rejects, POST_rejects by (rewrite Hget, HX; done).
      by rewrite (right_id_L [] (++)).
    + by rewrite (GET_forwards env net req X _ Hget HX),
        (POST_forwards env net req X _ Hget HX).
  - rewrite GET_rejects, POST_rejects by (by rewrite Hget).
    by rewrite (right_id_L [] (++)).
Qed.

(** ** The hook, one call and two calls in flight *)

Section SegmentFacts.
Import Fetch Hook Segments.
Variable net : network.

Lemma fetchUniversal_segments target encoded opts s :
  encodeURIComponent target = Return encoded →
  fetchUniversal net target opts s = (start;; settle net encoded opts) s.
Proof.
  intros Hencoded. unfold fetchUniversal, start, settle. run_eff.
  by rewrite Hencoded.
Qed.

Lemma start_state s : start s = (mkState true None JNull, Return ()).
Proof. reflexivity. Qed.

(** Settling writes [data] on success and [error] on failure, and leaves the
    other of the two as it finds it. *)
Lemma settle_cases encoded opts s :
  settle net encoded opts s
  = match outcome_of net encoded opts with
    | Return j => (mkState false (error s) j, Return j)
    | Throw e =>
        (mkState false (error_after e (error s)) (data s), Throw (rethrown e))
    end.
Proof.
  unfold settle, outcome_of, error_after, rethrown, setLoading, setError, setData.
  run_eff. cbn [loading error data].
  destruct (net _ opts) as [res|e]; [|by destruct (message_of e)].
  destruct (ok res); cbn [negb]; [|done].
  destruct (json res) as [j|e]; [done|]. by destruct (message_of e).
Qed.

Lemma fetchUniversal_outcome target opts s :
  fetchUniversal net target opts s
  = match match encodeURIComponent target with
          | Return encoded => outcome_of net encoded opts
          | Throw e => Throw e
          end with
    | Return j => (mkState false None j, Return j)
    | Throw e => (mkState false (error_after e None) JNull, Throw (rethrown e))
    end.
Proof.
  rewrite fetchUniversal_cases. unfold outcome_of.
  destruct (encodeURIComponent target) as [encoded|e]; [|done].
  destruct (net _ opts) as [res|e]; [|done].
  destruct (ok res); [|done]. by destruct (json res).
Qed.

End SegmentFacts.

(** X11: when the response has a 2xx status and a body that parses,
    [fetchUniversal] returns the parsed body and ends with [data] holding
    it, [error] null and [loading] false. *)
Theorem fetchUniversal_returns_body net target encoded opts s res j :
  Hook.encodeURIComponent target = Return encoded →
  net ("/api/universal?target=" +:+ encoded) opts = Return res →
  200 ≤ Fetch.status res ≤ 299 →
  Fetch.json res = Return j →
  Hook.fetchUniversal net target opts s = (Hook.mkState false None j, Return j).
Proof.
  intros Hencoded Hnet Hstatus Hjson. rewrite fetchUniversal_cases, Hencoded, Hnet.
  unfold Fetch.ok.
  destruct Hstatus as [->%Z.leb_le ->%Z.leb_le]. by rewrite Hjson.
Qed.

Lemma fetchUniversal_returns_body_witness :
  Hook.fetchUniversal
    (λ _ _, Return (Fetch.mkResponse 204 (Return NetSamples.boom)))
    (Hook.js "affiliate/activities") None Hook.initial
  = (Hook.mkState false None NetSamples.boom, Return NetSamples.boom).
Proof.
  apply (fetchUniversal_returns_body _ _ "affiliate%2Factivities" _ _
           (Fetch.mkResponse 204 (Return NetSamples.boom)));
    [reflexivity | reflexivity | cbn; lia | reflexivity].
Defined.

(** X12: a call of [fetchUniversal] that runs alone ends in a state that
    does not depend on the state it started from, and in which [data] and
    [error] are not both set. *)
Theorem fetchUniversal_forgets_state net target opts s1 s2 :
  Hook.fetchUniversal net target opts s1 = Hook.fetchUniversal net target opts s2
  ∧ (Hook.error (fst (Hook.fetchUniversal net target opts s1)) = None
     ∨ Hook.data (fst (Hook.fetchUniversal net target opts s1)) = JNull).
Proof.
  rewrite !fetchUniversal_outcome. split; [done|].
  destruct (match Hook.encodeURIComponent target with
            | Return encoded => Segments.outcome_of net encoded opts
            | Throw e => Throw e
            end); [by left | by right].
Qed.

(** X13: with two calls in flight, A started before B and settling after
    it, the hook ends with the state A writes over the state B left: the
    body of A if A returns, under the error of B if B threw; the error of A
    if A throws, beside the body of B if B returned. *)
Theorem overlap_last_settled_writes netA encodedA netB encodedB s :
  (∀ target opts,
     Hook.encodeURIComponent target = Return encodedA →
     Hook.fetchUniversal netA target opts s
     = (Segments.start;; Segments.settle netA encodedA opts) s)
  ∧ Segments.overlap netA encodedA netB encodedB s
  = (match Segments.outcome_of netA encodedA None,
           Segments.outcome_of netB encodedB None with
     | Return jA, Return jB => Hook.mkState false None jA
     | Return jA, Throw eB => Hook.mkState false (Hook.error_after eB None) jA
     | Throw eA, Return jB => Hook.mkState false (Hook.error_after eA None) jB
     | Throw eA, Throw eB =>
         Hook.mkState false (Hook.error_after eA (Hook.error_after eB None)) JNull
     end,
     (match Segments.outcome_of netA encodedA None with
      | Return jA => Return jA
      | Throw eA => Throw (Hook.rethrown eA)
      end,
      match Segments.outcome_of netB encodedB None with
      | Return jB => Return jB
      | Throw eB => Throw (Hook.rethrown eB)
      end))
  ∧ (∀ e : Error, ∀ before,
       Hook.error_after e before = Some (Hook.Str (message e))
       ∧ Hook.rethrown e = e).
Proof.
  split; [intros target opts; apply fetchUniversal_segments|]. split; [|done].
  unfold Segments.overlap. rewrite !start_state. cbn [fst].
  rewrite (settle_cases netB).
  destruct (Segments.outcome_of netB encodedB None) as [jB|eB];
    rewrite (settle_cases netA);
    by destruct (Segments.outcome_of netA encodedA None) as [jA|eA].
Qed.

Lemma overlap_last_settled_writes_witness :
  Hook.fetchUniversal NetSamples.net_500 (Hook.js "neural/metrics") None Hook.initial
  = (Segments.start;; Segments.settle NetSamples.net_500 "neural%2Fmetrics" None)
      Hook.initial.
Proof.
  apply (overlap_last_settled_writes NetSamples.net_500 "neural%2Fmetrics"
           NetSamples.net_down "affiliate%2Fmetrics" Hook.initial).
  reflexivity.
Defined.

(** X14: two calls in flight can leave the hook with [data] and [error] both
    set, which one call alone never does: when the call that settles last
    returns after the other threw, or throws after the other returned. *)
Theorem overlap_sets_data_and_error netA encodedA netB encodedB s jA (eB : Error) :
  Segments.outcome_of netA encodedA None = Return jA →
  Segments.outcome_of netB encodedB None = Throw eB →
  fst (Segments.overlap netA encodedA netB encodedB s)
  = Hook.mkState false (Some (Hook.Str (message eB))) jA
  ∧ fst (Segments.overlap netB encodedB netA encodedA s)
    = Hook.mkState false (Some (Hook.Str (message eB))) jA.
Proof.
  intros HA HB. unfold Segments.overlap. rewrite !start_state. cbn [fst].
  rewrite (settle_cases netB), HB, (settle_cases netA), HA. cbn [fst].
  rewrite (settle_cases netA), HA, (settle_cases netB), HB. done.
Qed.

Lemma overlap_sets_data_and_error_witness :
  fst (Segments.overlap
         (λ _ _, Return (Fetch.mkResponse 200 (Return NetSamples.boom)))
         "neural%2Fmetrics"
         NetSamples.net_down "affiliate%2Fmetrics" Hook.initial)
  = Hook.mkState false (Some (Hook.Str "fetch failed")) NetSamples.boom.
Proof.
  apply (overlap_sets_data_and_error
           (λ _ _, Return (Fetch.mkResponse 200 (Return NetSamples.boom)))
           "neural%2Fmetrics" NetSamples.net_down "affiliate%2Fmetrics" Hook.initial
           NetSamples.boom (mkError "TypeError" "fetch failed"));
    reflexivity.
Defined.

(** X15: as soon as one of two calls in flight has settled, [loading] is
    false, although the other call has not finished. *)
Theorem pending_call_not_loading netB encodedB s :
  Hook.loading (Segments.pending netB encodedB s) = false
  ∧ Hook.loading (fst (Segments.start (fst (Segments.start s)))) = true.
Proof.
  unfold Segments.pending. rewrite !start_state. cbn [fst].
  rewrite settle_cases. by destruct (Segments.outcome_of netB encodedB None).
Qed.

(** ** The request URL of the hook *)

Section EncodeFacts.
Import Hook Percent.

Ltac Zify.zify_post_hook ::= Z.to_euclidean_division_equations.

Lemma encodes_sound s enc : encodeURIComponent s = Return enc → encodes s enc.
Proof.
  remember (length s) as n eqn:Hn. revert s enc Hn.
  induction (lt_wf n) as [n _ IH]. intros s enc -> Henc.
  destruct s as [|u s]; cbn [encodeURIComponent] in Henc.
  { injection Henc as <-. constructor. }
  destruct (unescaped_unit u) eqn:Hu.
  { destruct (encodeURIComponent s) as [r|e] eqn:Hs; [|done].
    injection Henc as <-. constructor; [done|].
    eapply IH; [|done..]. cbn. lia. }
  destruct (is_lead u) eqn:Hlead.
  { destruct s as [|v s]; [done|].
    destruct (is_trail v) eqn:Hv; [|done].
    destruct (encodeURIComponent s) as [r|e] eqn:Hs; [|done].
    injection Henc as <-. constructor; [done..|].
    eapply IH; [|done..]. cbn. lia. }
  destruct (is_trail u) eqn:Htrail; [done|].
  destruct (encodeURIComponent s) as [r|e] eqn:Hs; [|done].
  injection Henc as <-. constructor; [done..|].
  eapply IH; [|done..]. cbn. lia.
Qed.

Lemma hex_digit_unescaped (n : N) : unescaped (hex_digit n) = true.
Proof.
  unfold hex_digit.
  destruct (N.to_nat n) as [|k]; [done|].
  do 15 (destruct k as [|k]; [done|]). done.
Qed.

Lemma unhex_hex_digit (n : N) : (n < 16)%N → unhex (hex_digit n) = n.
Proof.
  intros Hn.
  assert (n ∈ (N.of_nat <$> seq 0 16)) as Hin.
  { apply list_elem_of_fmap. exists (N.to_nat n).
    split; [lia|]. apply elem_of_seq. lia. }
  cbn in Hin. repeat (apply elem_of_cons in Hin as [->|Hin]; [done|]).
  by apply elem_of_nil in Hin.
Qed.

Lemma octets_percent (b : N) r : (b < 256)%N → octets (percent b r) = b :: octets r.
Proof.
  intros Hb. unfold percent. cbn [octets].
  rewrite bool_decide_eq_true_2 by done.
  rewrite !unhex_hex_digit by lia. f_equal. lia.
Qed.

Lemma octets_percent_all (bs : list N) r :
  Forall (λ b, (b < 256)%N) bs → octets (percent_all bs r) = bs ++ octets r.
Proof.
  induction 1 as [|b bs Hb _ IH]; [done|].
  cbn [percent_all foldr]. rewrite octets_percent by done.
  cbn. f_equal. apply IH.
Qed.

Lemma utf8_bounded (cp : N) : (cp < 0x110000)%N → Forall (λ b, (b < 256)%N) (utf8 cp).
Proof.
  intros Hcp. unfold utf8.
  destruct (N.ltb_spec cp 0x80); [|destruct (N.ltb_spec cp 0x800);
    [|destruct (N.ltb_spec cp 0x10000)]];
    repeat first [apply Forall_nil_2 | apply Forall_cons_2; [lia|]].
Qed.

Lemma code_points_utf8 (cp : N) r :
  (cp < 0x110000)%N → code_points (utf8 cp ++ r) = cp :: code_points r.
Proof.
  intros Hcp. unfold utf8.
  destruct (N.ltb_spec cp 0x80); [|destruct (N.ltb_spec cp 0x800);
    [|destruct (N.ltb_spec cp 0x10000)]];
    cbn [app code_points];
    repeat match goal with
      | |- context [(?a <? ?b)%N] => destruct (N.ltb_spec a b); try lia
      end;
    f_equal; lia.
Qed.

Lemma unescaped_unit_spec (u : N) :
  unescaped_unit u = true →
  (u < 128)%N ∧ unescaped (ascii_of_N u) = true ∧ N_of_ascii (ascii_of_N u) = u.
Proof.
  unfold unescaped_unit. intros [Hu Hc]%andb_true_iff.
  apply N.ltb_lt in Hu. split; [done|]. split; [done|].
  apply N_ascii_embedding. lia.
Qed.

Lemma unescaped_not_percent (c : ascii) : unescaped c = true → c ≠ "%"%char.
Proof. intros Hc ->. by vm_compute in Hc. Qed.

Lemma pair_code_point_range (u v : N) :
  is_lead u = true → is_trail v = true →
  (0x10000 ≤ pair_code_point u v < 0x110000)%N.
Proof.
  unfold is_lead, is_trail, pair_code_point.
  intros [?%N.leb_le ?%N.leb_le]%andb_true_iff [?%N.leb_le ?%N.leb_le]%andb_true_iff.
  lia.
Qed.

Lemma units_pair_code_point (u v : N) :
  is_lead u = true → is_trail v = true → units (pair_code_point u v) = [u; v].
Proof.
  intros Hu Hv. pose proof (pair_code_point_range u v Hu Hv) as Hcp.
  unfold units. destruct (N.ltb_spec (pair_code_point u v) 0x10000); [lia|].
  revert Hu Hv. unfold is_lead, is_trail, pair_code_point.
  intros [?%N.leb_le ?%N.leb_le]%andb_true_iff [?%N.leb_le ?%N.leb_le]%andb_true_iff.
  f_equal; [|f_equal]; lia.
Qed.

Lemma decode_unescaped (u : N) r :
  unescaped_unit u = true → decode (String (ascii_of_N u) r) = u :: decode r.
Proof.
  intros (Hu & Hc & Hemb)%unescaped_unit_spec. unfold decode. cbn [octets].
  rewrite bool_decide_eq_false_2 by by apply unescaped_not_percent.
  rewrite Hemb. cbn [code_points].
  destruct (N.ltb_spec u 0x80); [|lia]. cbn [mbind list_bind]. unfold units.
  by destruct (N.ltb_spec u 0x10000); [|lia].
Qed.

Lemma decode_percent_all (cp : N) r :
  (cp < 0x110000)%N → decode (percent_all (utf8 cp) r) = units cp ++ decode r.
Proof.
  intros Hcp. unfold decode.
  rewrite octets_percent_all by by apply utf8_bounded.
  by rewrite code_points_utf8.
Qed.

Lemma decode_encodes s enc :
  encodes s enc → Forall (λ u, (u < 0x10000)%N) s → decode enc = s.
Proof.
  induction 1 as [|u s r Hu _ IH|u s r Hu Hlead Htrail _ IH|u v s r Hu Hlead Hv _ IH];
    intros Hwf.
  - done.
  - apply Forall_cons in Hwf as [_ Hwf]. rewrite decode_unescaped, IH; done.
  - apply Forall_cons in Hwf as [Hu16 Hwf].
    rewrite decode_percent_all, IH by (done || lia).
    unfold units. by destruct (N.ltb_spec u 0x10000); [|lia].
  - apply Forall_cons in Hwf as [_ [_ Hwf]%Forall_cons].
    pose proof (pair_code_point_range u v Hlead Hv).
    rewrite decode_percent_all, IH, units_pair_code_point by (done || lia). done.
Qed.

Lemma length_percent_all (bs : list N) r :
  String.length (percent_all bs r) = (3 * length bs + String.length r)%nat.
Proof.
  induction bs as [|b bs IH]; [done|].
  cbn [percent_all foldr percent String.length length].
  fold (percent_all bs r). rewrite IH. lia.
Qed.

Lemma length_utf8 (cp : N) :
  (1 ≤ length (utf8 cp) ≤ 4)%nat
  ∧ ((cp < 0x10000)%N → (length (utf8 cp) ≤ 3)%nat)
  ∧ ((0x10000 ≤ cp)%N → length (utf8 cp) = 4%nat).
Proof.
  unfold utf8.
  destruct (N.ltb_spec cp 0x80); [|destruct (N.ltb_spec cp 0x800);
    [|destruct (N.ltb_spec cp 0x10000)]]; cbn; lia.
Qed.

Lemma length_encodes s enc :
  encodes s enc →
  (length s ≤ String.length enc)%nat
  ∧ (Forall (λ u, (u < 0x10000)%N) s → (String.length enc ≤ 9 * length s)%nat).
Proof.
  induction 1 as [|u s r Hu _ [IHlo IHhi]|u s r Hu Hlead Htrail _ [IHlo IHhi]
                  |u v s r Hu Hlead Hv _ [IHlo IHhi]].
  - cbn. lia.
  - cbn [String.length length]. split; [lia|].
    intros [_ Hwf]%Forall_cons. specialize (IHhi Hwf). lia.
  - rewrite length_percent_all. cbn [length].
    pose proof (length_utf8 u) as (Hlen & Hbmp & _). split; [lia|].
    intros [Hu16 Hwf]%Forall_cons. specialize (IHhi Hwf). specialize (Hbmp Hu16). lia.
  - rewrite length_percent_all. cbn [length].
    pose proof (pair_code_point_range u v Hlead Hv) as Hcp.
    pose proof (length_utf8 (pair_code_point u v)) as (_ & _ & Hlen).
    rewrite Hlen by lia. split; [lia|].
    intros [_ [_ Hwf]%Forall_cons]%Forall_cons. specialize (IHhi Hwf). lia.
Qed.

Lemma chars_percent_all (bs : list N) r (c : ascii) :
  c ∈ String.list_ascii_of_string (percent_all bs r) →
  c = "%"%char ∨ unescaped c = true ∨ c ∈ String.list_ascii_of_string r.
Proof.
  induction bs as [|b bs IH]; [by right; right|].
  cbn [percent_all foldr percent String.list_ascii_of_string].
  rewrite !elem_of_cons. intros [->|[->|[->|Hin]]];
    auto using hex_digit_unescaped.
Qed.

Lemma chars_encodes s enc (c : ascii) :
  encodes s enc → c ∈ String.list_ascii_of_string enc →
  unescaped c = true ∨ c = "%"%char.
Proof.
  induction 1 as [|u s r Hu _ IH|u s r Hu Hlead Htrail _ IH|u v s r Hu Hlead Hv _ IH].
  - by intros ?%elem_of_nil.
  - cbn [String.list_ascii_of_string]. rewrite elem_of_cons. intros [->|Hin]; [|auto].
    left. by apply unescaped_unit_spec.
  - intros [->|[?|?]]%chars_percent_all; auto.
  - intros [->|[?|?]]%chars_percent_all; auto.
Qed.

Lemma length_js (s : string) : length (js s) = String.length s.
Proof.
  unfold js. rewrite length_fmap.
  induction s as [|c s IH]; [done|]. cbn. by rewrite IH.
Qed.

Lemma js_encodes s enc :
  encodes s enc → js enc = s ↔ Forall (λ u, unescaped_unit u = true) s.
Proof.
  intros Hs. pose proof (length_encodes s enc Hs) as [Hlen _]. revert Hlen.
  induction Hs as [|u s r Hu Hs IH|u s r Hu Hlead Htrail Hs IH|u v s r Hu Hlead Hv Hs IH];
    intros Hlen.
  - by split; [constructor|].
  - change (js (String (ascii_of_N u) r)) with (N_of_ascii (ascii_of_N u) :: js r).
    destruct (unescaped_unit_spec u Hu) as (_ & _ & ->).
    pose proof (length_encodes s r Hs) as [Hlen' _].
    rewrite Forall_cons. split.
    + intros [= Heq]. split; [done|]. by apply IH.
    + intros [_ Hall]. f_equal. by apply IH.
  - split.
    + intros Heq%(f_equal length). rewrite length_js, length_percent_all in Heq.
      pose proof (length_utf8 u) as (? & _). pose proof (length_encodes s r Hs) as [? _].
      cbn [length] in Heq. lia.
    + intros [Hu' _]%Forall_cons. congruence.
  - split.
    + intros Heq%(f_equal length). rewrite length_js, length_percent_all in Heq.
      pose proof (length_utf8 (pair_code_point u v)) as (? & _).
      pose proof (pair_code_point_range u v Hlead Hv).
      pose proof (length_utf8 (pair_code_point u v)) as (_ & _ & Hfour).
      pose proof (length_encodes s r Hs) as [? _].
      cbn [length] in Heq. lia.
    + intros [Hu' _]%Forall_cons. congruence.
Qed.

Lemma safe_not_delimiter (c : ascii) :
  unescaped c = true ∨ c = "%"%char →
  c ∉ String.list_ascii_of_string "&=#?/+ ".
Proof.
  intros Hc. apply (bool_decide_unpack _).
  assert (unescaped c || bool_decide (c = "%"%char) = true) as Hb.
  { destruct Hc as [->| ->]; [done|]. by vm_compute. }
  revert Hb. clear. destruct c as [[] [] [] [] [] [] [] []]; by vm_compute.
Qed.

End EncodeFacts.

(** X16: when [encodeURIComponent] returns, the encoded target consists of
    unescaped characters and [%] only, so none of the characters that
    delimit a URL's query or its parameters occurs in it: the hook's URL has
    the one parameter [target]. *)
Theorem encodeURIComponent_no_delimiter (s : list N) (encoded : string) (c : ascii) :
  Hook.encodeURIComponent s = Return encoded →
  c ∈ String.list_ascii_of_string encoded →
  (Hook.unescaped c = true ∨ c = "%"%char)
  ∧ c ∉ String.list_ascii_of_string "&=#?/+ ".
Proof.
  intros Hs%encodes_sound Hc.
  pose proof (chars_encodes s encoded c Hs Hc) as Hsafe.
  split; [done|]. by apply safe_not_delimiter.
Qed.

Lemma encodeURIComponent_no_delimiter_witness :
  (Hook.unescaped "F" = true ∨ "F"%char = "%"%char)
  ∧ "F"%char ∉ String.list_ascii_of_string "&=#?/+ ".
Proof.
  apply (encodeURIComponent_no_delimiter (Hook.js "neural/metrics") "neural%2Fmetrics").
  - reflexivity.
  - vm_compute. do 8 right. left.
Defined.

(** X17: on strings of 16-bit code units [encodeURIComponent] is injective
    where it returns: two targets with the same encoding are the same
    target, so different targets give different request URLs. *)
Theorem encodeURIComponent_inj (s1 s2 : list N) (encoded : string) :
  Forall (λ u, (u < 0x10000)%N) s1 →
  Forall (λ u, (u < 0x10000)%N) s2 →
  Hook.encodeURIComponent s1 = Return encoded →
  Hook.encodeURIComponent s2 = Return encoded →
  s1 = s2.
Proof.
  intros Hwf1 Hwf2 H1%encodes_sound H2%encodes_sound.
  rewrite <-(decode_encodes s1 encoded), <-(decode_encodes s2 encoded); done.
Qed.

Lemma encodeURIComponent_inj_witness :
  [0x61%N; 0x20AC%N; 0xD83D%N; 0xDE00%N] = [0x61%N; 0x20AC%N; 0xD83D%N; 0xDE00%N].
Proof.
  apply (encodeURIComponent_inj _ _ "a%E2%82%AC%F0%9F%98%80");
    [repeat constructor | repeat constructor | reflexivity | reflexivity].
Defined.

(** X18: when [encodeURIComponent] returns, the result has at least as many
    characters as the target has code units, and at most nine times as many
    for a target of 16-bit code units; it is the target itself exactly when
    every code unit of the target is a letter, a digit or one of
    [- _ . ! ~ * ' ( )]. *)
Theorem encodeURIComponent_length (s : list N) (encoded : string) :
  Hook.encodeURIComponent s = Return encoded →
  (length s ≤ String.length encoded)%nat
  ∧ (Forall (λ u, (u < 0x10000)%N) s → (String.length encoded ≤ 9 * length s)%nat)
  ∧ (Hook.js encoded = s ↔ Forall (λ u, Hook.unescaped_unit u = true) s).
Proof.
  intros Hs%encodes_sound.
  pose proof (length_encodes s encoded Hs) as [Hlo Hhi].
  split; [done|]. split; [done|]. by apply js_encodes.
Qed.

Lemma encodeURIComponent_length_witness :
  (length [0x20AC%N] ≤ String.length "%E2%82%AC")%nat
  ∧ (String.length "%E2%82%AC" ≤ 9 * length [0x20AC%N])%nat.
Proof.
  destruct (encodeURIComponent_length [0x20AC%N] "%E2%82%AC") as (Hlo & Hhi & _);
    [reflexivity|].
  split; [exact Hlo|]. apply Hhi. repeat constructor.
Defined.

(** ** The hook behind the gateway *)

(** X19: when the upstream answers a forwarded [GET] with a JSON body under
    any status, an error status included, and the browser receives what the
    route returned, [fetchUniversal] returns that body and ends with [data]
    holding it and [error] null: the upstream's error status does not reach
    the hook. *)
Theorem upstream_status_hidden_from_hook
    env net hnet req X calls res j target encoded opts s :
  Gateway.get "target" (Gateway.searchParams req) = Some X → X ≠ "" →
  net (Gateway.BACKEND_URL env +:+ "/" +:+ X) (Some (Fetch.mkInit "GET" None []))
  = Return res →
  Fetch.json res = Return j →
  Hook.encodeURIComponent target = Return encoded →
  (∀ r, snd (Gateway.GET env net req calls) = Return r →
        hnet ("/api/universal?target=" +:+ encoded) opts
        = Return (Wire.as_response r)) →
  Hook.fetchUniversal hnet target opts s = (Hook.mkState false None j, Return j).
Proof.
  intros Hget HX Hnet Hjson Hencoded Hwire.
  rewrite fetchUniversal_cases, Hencoded, (Hwire (Gateway.mkNextResponse 200 j));
    [done|].
  rewrite (GET_forwards env net req X calls Hget HX). cbn [snd].
  by rewrite Hnet, Hjson.
Qed.

Lemma upstream_status_hidden_from_hook_witness :
  Hook.fetchUniversal
    (λ _ _, Return (Wire.as_response (Gateway.mkNextResponse 200 NetSamples.boom)))
    (Hook.js "neural/metrics") None Hook.initial
  = (Hook.mkState false None NetSamples.boom, Return NetSamples.boom).
Proof.
  apply (upstream_status_hidden_from_hook None NetSamples.net_500 _
           NetSamples.to_metrics "neural/metrics" []
           (Fetch.mkResponse 500 (Return NetSamples.boom)) NetSamples.boom
           (Hook.js "neural/metrics") "neural%2Fmetrics");
    [reflexivity | discriminate | reflexivity | reflexivity | reflexivity |].
  intros r Hr. vm_compute in Hr. injection Hr as <-. reflexivity.
Defined.
